(** * LuxAI: the Claude chat client facade ([claude_client.py])

    A shallow embedding of [ClaudeClient] and the properties of its four
    operations.  Python values that reach the facade are modelled by
    [pyval]; the vendor client ([anthropic.Anthropic]) is an external
    collaborator and appears as a record of behaviours ([Transport]);
    the process environment, the instance attributes and the calls made
    to the outside are threaded through a state-and-exception monad. *)

From Stdlib Require Import ZArith String List.
From Stdlib Require Import SpecFloat.
From stdpp Require Import base option list gmap strings.

Set Warnings "-register-all".
Local Open Scope string_scope.
Local Open Scope list_scope.
Local Open Scope stdpp_scope.

Module ClaudeClient.

(** ** Python values *)

(** The dynamically typed values the facade receives and forwards.
    Floats are IEEE-754 binary64 numbers; the facade never computes with
    them, it only tests them for truth and passes them on. *)
Inductive pyval : Type :=
| PNone
| PBool (b : bool)
| PInt (n : Z)
| PFloat (f : spec_float)
| PStr (s : string)
| PList (l : list pyval)
| PDict (d : list (string * pyval)).

(** [bool(v)]: what [if v:], [not v] and [v or w] test. *)
Definition truthy (v : pyval) : bool :=
  match v with
  | PNone => false
  | PBool b => b
  | PInt n => negb (n =? 0)%Z
  | PFloat (S754_zero _) => false
  | PFloat _ => true
  | PStr EmptyString => false
  | PStr _ => true
  | PList [] => false
  | PList _ => true
  | PDict [] => false
  | PDict _ => true
  end.

(** [1.0] as a binary64 number: mantissa [2^52], exponent [-52]. *)
Definition float_one : spec_float := S754_finite false 4503599627370496 (-52).

(** ** Exceptions *)

Inductive BindError : Type :=
| MultipleValues
| UnexpectedKeyword
| TooManyPositional
| MissingArgument.

(** The exceptions that travel through the facade.  [VendorError] is an
    exception class of the vendor library, all of which derive from
    [Exception].  [StopIterationExn] is a [StopIteration] raised as an
    exception; [NotAnException] is an exception outside the [Exception]
    class ([KeyboardInterrupt], [SystemExit], [GeneratorExit]). *)
Inductive exn : Type :=
| ValueError (msg : string)
| TypeError (why : BindError)
| IndexError
| AttributeError (attr : string)
| VendorError (name : string) (msg : string)
| StopIterationExn
| RuntimeError (msg : string)
| NotAnException (name : string).

(** ** Calls and argument binding *)

(** A call site: the positional arguments after the receiver, and the
    keyword arguments (explicit [name=value] and [**mapping] together;
    Python rejects a repeated keyword before the call is made). *)
Record Call : Type := {
  positional : list pyval;
  keywords : gmap string pyval
}.

Record Param : Type := {
  p_name : string;
  p_default : option pyval
}.

(** A parameter filled by position that the keywords name again. *)
Fixpoint multiple_values (sig : list Param) (pos : list pyval)
    (kw : gmap string pyval) : bool :=
  match sig, pos with
  | p :: sig', _ :: pos' =>
      match kw !! p_name p with
      | Some _ => true
      | None => multiple_values sig' pos' kw
      end
  | _, _ => false
  end.

(** The keywords that name no parameter: what [**kwargs] receives. *)
Definition surplus (sig : list Param) (kw : gmap string pyval)
    : gmap string pyval :=
  foldr delete kw (p_name <$> sig).

(** One value per parameter: by position, else by keyword, else the
    default; [None] when a parameter without default is left out. *)
Fixpoint fill (sig : list Param) (pos : list pyval)
    (kw : gmap string pyval) : option (list pyval) :=
  match sig with
  | [] => Some []
  | p :: sig' =>
      match pos with
      | v :: pos' => cons v <$> fill sig' pos' kw
      | [] =>
          match kw !! p_name p with
          | Some v => cons v <$> fill sig' [] kw
          | None =>
              match p_default p with
              | Some v => cons v <$> fill sig' [] kw
              | None => None
              end
          end
      end
  end.

(** Binding of a call to [def f(self, p1, ..., pn)] (when [var_kw] is
    [false]) or [def f(self, p1, ..., pn, **kwargs)] (when it is [true]),
    invoked as a bound method: [self] is taken by the receiver, so a
    keyword of that name is a second value for it. *)
Definition bind_args (sig : list Param) (var_kw : bool) (c : Call)
    : exn + (list pyval * gmap string pyval) :=
  if bool_decide (is_Some (keywords c !! "self"))
  then inl (TypeError MultipleValues)
  else if multiple_values sig (positional c) (keywords c)
  then inl (TypeError MultipleValues)
  else
    let extra := surplus sig (keywords c) in
    if negb var_kw && negb (bool_decide (dom extra = ∅))
    then inl (TypeError UnexpectedKeyword)
    else if bool_decide (length sig < length (positional c))
    then inl (TypeError TooManyPositional)
    else
      match fill sig (positional c) (keywords c) with
      | Some vs => inr (vs, extra)
      | None => inl (TypeError MissingArgument)
      end.

(** The shape shared by [chat], [chat_stream] and [chat_with_history]:
    [(self, <first>, model=..., system_prompt=None, max_tokens=1024,
    temperature=1.0, **kwargs)]; [first] is [message] or [messages]. *)
Definition chat_signature (first : string) : list Param :=
  [ {| p_name := first; p_default := None |};
    {| p_name := "model";
       p_default := Some (PStr "claude-3-5-sonnet-20241022") |};
    {| p_name := "system_prompt"; p_default := Some PNone |};
    {| p_name := "max_tokens"; p_default := Some (PInt 1024) |};
    {| p_name := "temperature"; p_default := Some (PFloat float_one) |} ].

(** The local variables of a chat method once the call is bound. *)
Record Frame : Type := {
  arg0 : pyval;
  model : pyval;
  system_prompt : pyval;
  max_tokens : pyval;
  temperature : pyval;
  kwargs : gmap string pyval
}.

Definition bind_chat (first : string) (c : Call) : exn + Frame :=
  match bind_args (chat_signature first) true c with
  | inl e => inl e
  | inr ([a; m; s; t; temp], kw) =>
      inr {| arg0 := a; model := m; system_prompt := s; max_tokens := t;
             temperature := temp; kwargs := kw |}
  | inr _ => inl (TypeError MissingArgument)
  end.

(** [__init__(self, api_key=None)]. *)
Definition init_signature : list Param :=
  [ {| p_name := "api_key"; p_default := Some PNone |} ].

Definition bind_init (c : Call) : exn + pyval :=
  match bind_args init_signature false c with
  | inl e => inl e
  | inr ([k], _) => inr k
  | inr _ => inl (TypeError MissingArgument)
  end.

(** [get_available_models(self)]. *)
Definition bind_nullary (c : Call) : exn + unit :=
  match bind_args [] false c with
  | inl e => inl e
  | inr _ => inr tt
  end.

(** ** The vendor transport *)

(** The reply of a synchronous call: an ordered list of content blocks,
    each exposing a [text] field. *)
Record ContentBlock : Type := { text : string }.
Record Message : Type := { content : list ContentBlock }.

(** What iterating [stream.text_stream] produces: the fragments, then
    either the end of the stream or an error raised by the transport.
    An iterator ends by raising [StopIteration], so that exception as
    [failure] is the end of the stream too. *)
Record TextStream : Type := {
  fragments : list string;
  failure : option exn
}.

(** The two capabilities of the vendor client the facade relies on.
    [messages_create params] is [client.messages.create] applied to
    the unpacked [params].
    [messages_stream params] is [client.messages.stream] applied to the unpacked [params]
    followed by [__enter__]: an error leaves nothing acquired.  The
    manager's [__exit__] releases the stream and returns [None], so it
    never suppresses an exception. *)
Record Transport : Type := {
  messages_create : gmap string pyval -> exn + Message;
  messages_stream : gmap string pyval -> exn + TextStream
}.

(** ** The world *)

(** What the facade does to the outside, in order of occurrence. *)
Inductive Event : Type :=
| EvGetenv (name : string)
| EvAnthropic (key : pyval)
| EvCreate (params : gmap string pyval)
| EvStream (params : gmap string pyval)
| EvEnter
| EvExit.

(** The attributes of a [ClaudeClient] instance; [None] is an attribute
    not assigned yet. *)
Record Instance : Type := {
  api_key : option pyval;
  client : option Transport
}.

Definition blank : Instance := {| api_key := None; client := None |}.

Record World : Type := {
  environ : gmap string string;
  self : Instance;
  trace : list Event
}.

(** ** State and exceptions *)

Definition M (A : Type) : Type := World -> (exn + A) * World.

Definition ret {A} (a : A) : M A := fun w => (inr a, w).

Definition raise {A} (e : exn) : M A := fun w => (inl e, w).

Definition bind {A B} (m : M A) (k : A -> M B) : M B :=
  fun w =>
    match m w with
    | (inl e, w') => (inl e, w')
    | (inr a, w') => k a w'
    end.

Notation "'let*' x := m 'in' k" := (bind m (fun x => k))
  (at level 10, x name, m at level 100, k at level 200).
Notation "m ;; k" := (bind m (fun _ => k))
  (at level 100, k at level 200, right associativity).

Definition lift {A} (r : exn + A) : M A := fun w => (r, w).

Definition emit (ev : Event) : M unit :=
  fun w => (inr tt, {| environ := environ w; self := self w;
                      trace := trace w ++ [ev] |}).

(** [os.getenv(name)]: [None] when the variable is unset. *)
Definition getenv (name : string) : M pyval :=
  emit (EvGetenv name) ;;
  fun w => (inr (match environ w !! name with
                 | Some v => PStr v
                 | None => PNone
                 end), w).

Definition set_api_key (v : pyval) : M unit :=
  fun w => (inr tt, {| environ := environ w;
                      self := {| api_key := Some v; client := client (self w) |};
                      trace := trace w |}).

Definition set_client (t : Transport) : M unit :=
  fun w => (inr tt, {| environ := environ w;
                      self := {| api_key := api_key (self w); client := Some t |};
                      trace := trace w |}).

Definition get_api_key : M pyval :=
  fun w => match api_key (self w) with
           | Some v => (inr v, w)
           | None => (inl (AttributeError "api_key"), w)
           end.

Definition get_client : M Transport :=
  fun w => match client (self w) with
           | Some t => (inr t, w)
           | None => (inl (AttributeError "client"), w)
           end.

(** ** Dict displays *)

(** [{k1: v1, ..., kn: vn}]: a later item replaces an earlier one. *)
Definition dict_literal (items : list (string * pyval)) : gmap string pyval :=
  foldl (fun d kv => <[kv.1 := kv.2]> d) ∅ items.

(** [{..., **extra}]: the entries of [extra] come last and win. *)
Definition spread (d extra : gmap string pyval) : gmap string pyval :=
  extra ∪ d.

(** [response.content[0].text]. *)
Definition first_text (response : Message) : M string :=
  match content response with
  | b :: _ => ret (text b)
  | [] => raise IndexError
  end.

(** ** Construction *)

Section Construction.

(** [anthropic.Anthropic(api_key=k)]: the vendor's client for a key. *)
Variable Anthropic : pyval -> Transport.

Definition new_Anthropic (k : pyval) : M Transport :=
  emit (EvAnthropic k) ;; ret (Anthropic k).

Definition __init__ (c : Call) : M unit :=
  let* arg := lift (bind_init c) in
  let* k := (if truthy arg then ret arg else getenv "ANTHROPIC_API_KEY") in
  set_api_key k ;;
  let* k := get_api_key in
  if negb (truthy k)
  then raise (ValueError
    "API key required. Set ANTHROPIC_API_KEY environment variable or pass api_key parameter.")
  else
    let* k := get_api_key in
    let* t := new_Anthropic k in
    set_client t.

(** [ClaudeClient(...)]: a fresh instance, then [__init__] on it. *)
Definition construct (c : Call) : M unit :=
  (fun w => (inr tt, {| environ := environ w; self := blank;
                       trace := trace w |})) ;;
  __init__ c.

End Construction.

(** ** The chat operations *)

(** [self.client.messages.create] on the unpacked [params]. *)
Definition create (params : gmap string pyval) : M Message :=
  let* t := get_client in
  emit (EvCreate params) ;;
  lift (messages_create t params).

Definition chat (c : Call) : M string :=
  let* fr := lift (bind_chat "message" c) in
  let messages := PList [PDict [("role", PStr "user"); ("content", arg0 fr)]] in
  let params :=
    spread (dict_literal [("model", model fr);
                          ("messages", messages);
                          ("max_tokens", max_tokens fr);
                          ("temperature", temperature fr)])
           (kwargs fr) in
  let params :=
    if truthy (system_prompt fr)
    then <["system" := system_prompt fr]> params
    else params in
  let* response := create params in
  first_text response.

Definition chat_with_history (c : Call) : M string :=
  let* fr := lift (bind_chat "messages" c) in
  let messages := arg0 fr in
  let params :=
    spread (dict_literal [("model", model fr);
                          ("messages", messages);
                          ("max_tokens", max_tokens fr);
                          ("temperature", temperature fr)])
           (kwargs fr) in
  let params :=
    if truthy (system_prompt fr)
    then <["system" := system_prompt fr]> params
    else params in
  let* response := create params in
  first_text response.

Definition get_available_models (c : Call) : M (list string) :=
  lift (bind_nullary c) ;;
  ret [ "claude-3-5-sonnet-20241022";
        "claude-3-5-haiku-20241022";
        "claude-3-opus-20240229";
        "claude-3-sonnet-20240229";
        "claude-3-haiku-20240307" ].

(** ** Streaming chat *)

(** [chat_stream] is a generator function: calling it binds the
    arguments and returns a generator; the body runs when the generator
    is resumed.  A generator is not started yet, suspended at the
    [yield] (inside the [for] loop and the [with] block, with the rest
    of the stream ahead), or finished. *)
Inductive Generator : Type :=
| GenCreated (fr : Frame)
| GenSuspended (rest : list string) (fail : option exn)
| GenClosed.

(** The outcome of [next(gen)]. *)
Inductive Resume : Type :=
| Yielded (t : string)
| StopIteration
| Raised (e : exn).

(** The loop [for text in stream.text_stream: yield text] from the
    request for the next fragment up to the next [yield], or out of the
    [with] block, whose [__exit__] runs whether the stream ended or
    raised. *)
Definition stream_loop (rest : list string) (fail : option exn)
    : M (option (string * Generator)) :=
  match rest with
  | t :: rest' => ret (Some (t, GenSuspended rest' fail))
  | [] =>
      emit EvExit ;;
      match fail with
      | Some StopIterationExn => ret None
      | Some e => raise e
      | None => ret None
      end
  end.

(** The body of [chat_stream] from its start to the first [yield]. *)
Definition chat_stream_body (fr : Frame) : M (option (string * Generator)) :=
  let messages := PList [PDict [("role", PStr "user"); ("content", arg0 fr)]] in
  let params :=
    spread (dict_literal [("model", model fr);
                          ("messages", messages);
                          ("max_tokens", max_tokens fr);
                          ("temperature", temperature fr);
                          ("stream", PBool true)])
           (kwargs fr) in
  let params :=
    if truthy (system_prompt fr)
    then <["system" := system_prompt fr]> params
    else params in
  let* t := get_client in
  emit (EvStream params) ;;
  let* s := lift (messages_stream t params) in
  emit EvEnter ;;
  stream_loop (fragments s) (failure s).

Definition chat_stream (c : Call) : M Generator :=
  let* fr := lift (bind_chat "message" c) in
  ret (GenCreated fr).

(** What the caller of [next] receives when the body of a generator
    raises [e]: a [StopIteration] that leaves the body is replaced by a
    [RuntimeError] (PEP 479); any other exception is passed on. *)
Definition leaving_generator (e : exn) : exn :=
  match e with
  | StopIterationExn => RuntimeError "generator raised StopIteration"
  | _ => e
  end.

(** Running the generator up to its next [yield], return or raise. *)
Definition resume (m : M (option (string * Generator))) (w : World)
    : (Resume * Generator) * World :=
  match m w with
  | (inr (Some (t, g)), w') => ((Yielded t, g), w')
  | (inr None, w') => ((StopIteration, GenClosed), w')
  | (inl e, w') => ((Raised (leaving_generator e), GenClosed), w')
  end.

(** [next(gen)]. *)
Definition gen_next (g : Generator) (w : World)
    : (Resume * Generator) * World :=
  match g with
  | GenCreated fr => resume (chat_stream_body fr) w
  | GenSuspended rest fail => resume (stream_loop rest fail) w
  | GenClosed => ((StopIteration, GenClosed), w)
  end.

(** [gen.close()], which Python also runs when a generator that is no
    longer used is finalized: [GeneratorExit] is raised at the [yield],
    leaves the [with] block through [__exit__], and ends the generator.
    A generator that was never started has nothing to unwind. *)
Definition gen_close (g : Generator) (w : World) : Generator * World :=
  match g with
  | GenSuspended _ _ => (GenClosed, (emit EvExit w).2)
  | _ => (GenClosed, w)
  end.

(** How a [for] loop over the generator ended: the generator was
    exhausted, it raised, or the loop was left with the generator still
    live. *)
Inductive Ending : Type :=
| Exhausted
| Failed (e : exn)
| Pending (g : Generator).

(** [for chunk in gen: ...] followed for at most [n] resumptions of the
    generator; a loop that is not left early needs one more resumption
    than there are fragments, the last one ending it. *)
Fixpoint for_each (n : nat) (g : Generator) (w : World)
    : (list string * Ending) * World :=
  match n with
  | O => (([], Pending g), w)
  | S n' =>
      match gen_next g w with
      | ((Yielded t, g'), w') =>
          let '((ts, e), w'') := for_each n' g' w' in ((t :: ts, e), w'')
      | ((StopIteration, _), w') => (([], Exhausted), w')
      | ((Raised e, _), w') => (([], Failed e), w')
      end
  end.

End ClaudeClient.

Import ClaudeClient.

(** * Observations

    The vocabulary the properties are stated in. *)

(** The world after further events; environment and instance as before. *)
Definition log (w : World) (evs : list Event) : World :=
  {| environ := environ w; self := self w; trace := trace w ++ evs |}.

(** What a chat method returns or raises once the transport has been
    handed [params]. *)
Definition reply (t : Transport) (params : gmap string pyval) : exn + string :=
  match messages_create t params with
  | inl e => inl e
  | inr r =>
      match content r with
      | b :: _ => inr (text b)
      | [] => inl IndexError
      end
  end.

(** The one-element conversation made of a single user turn. *)
Definition user_turn (message : pyval) : pyval :=
  PList [PDict [("role", PStr "user"); ("content", message)]].

(** The first argument after the receiver, as the caller wrote it. *)
Definition first_argument (name : string) (c : Call) : option pyval :=
  match positional c with
  | v :: _ => Some v
  | [] => keywords c !! name
  end.

(** The entries of a request map built from the frame [fr], where
    [messages] is the conversation the method itself puts in. *)
Definition request_facts (fr : Frame) (messages : pyval)
    (params : gmap string pyval) : Prop :=
  params !! "model" = Some (model fr)
  ∧ params !! "max_tokens" = Some (max_tokens fr)
  ∧ params !! "temperature" = Some (temperature fr)
  ∧ params !! "messages" = Some (default messages (kwargs fr !! "messages"))
  ∧ params !! "system"
    = (if truthy (system_prompt fr) then Some (system_prompt fr)
       else kwargs fr !! "system")
  ∧ (∀ k v, kwargs fr !! k = Some v → k ≠ "system" → params !! k = Some v).

(** The request maps handed to the transport, oldest first. *)
Definition requests (t : list Event) : list (gmap string pyval) :=
  omap (fun ev => match ev with
                  | EvCreate p | EvStream p => Some p
                  | _ => None
                  end) t.

Inductive ChatOp : Type := SingleTurn | Streaming | MultiTurn.

Definition first_param (op : ChatOp) : string :=
  match op with
  | MultiTurn => "messages"
  | _ => "message"
  end.

Definition own_messages (op : ChatOp) (fr : Frame) : pyval :=
  match op with
  | MultiTurn => arg0 fr
  | _ => user_turn (arg0 fr)
  end.

(** The world after the operation was called; a streaming chat is
    resumed once, which is when its body reaches the transport. *)
Definition perform (op : ChatOp) (c : Call) (w : World) : World :=
  match op with
  | SingleTurn => (chat c w).2
  | MultiTurn => (chat_with_history c w).2
  | Streaming =>
      match chat_stream c w with
      | (inr g, w') => (gen_next g w').2
      | (inl _, w') => w'
      end
  end.

(** How a loop over a stream ends, given how the stream ends. *)
Definition ending_of (fail : option exn) : Ending :=
  match fail with
  | Some StopIterationExn => Exhausted
  | Some e => Failed e
  | None => Exhausted
  end.

(** A computation that leaves the instance and the environment alone. *)
Definition preserves {A} (m : M A) : Prop :=
  ∀ w, self (m w).2 = self w ∧ environ (m w).2 = environ w.

(** Streams entered and not yet exited. *)
Definition open_streams (t : list Event) : Z :=
  foldr (fun ev n => match ev with
                     | EvEnter => n + 1
                     | EvExit => n - 1
                     | _ => n
                     end)%Z 0%Z t.

(** Whether a generator holds a stream: only when suspended inside the
    [with] block. *)
Definition live (g : Generator) : Z :=
  match g with
  | GenSuspended _ _ => 1
  | _ => 0
  end.

(** ** Sample inputs *)

Definition no_arguments : Call := {| positional := []; keywords := ∅ |}.

(** A stub that answers every request with the text [pong] and streams
    the fragments [a], [b], [c]. *)
Definition pong_stub : Transport :=
  {| messages_create := fun _ => inr {| content := [ {| text := "pong" |} ] |};
     messages_stream := fun _ =>
       inr {| fragments := ["a"; "b"; "c"]; failure := None |} |}.

(** A stub that fails every request, and fails a stream after [a]. *)
Definition failing_stub (e : exn) : Transport :=
  {| messages_create := fun _ => inl e;
     messages_stream := fun _ =>
       inr {| fragments := ["a"]; failure := Some e |} |}.

Definition rate_limited : exn := VendorError "RateLimitError" "429".

(** An instance already constructed around a transport. *)
Definition ready (t : Transport) : World :=
  {| environ := ∅;
     self := {| api_key := Some (PStr "sk-test"); client := Some t |};
     trace := [] |}.

(** The statements of the specification that do not hold as written. *)

(** Extras naming [model], [max_tokens] or [temperature] reach the
    transport in the request. *)
Definition extras_override_claim : Prop :=
  ∀ op c w t k v,
    client (self w) = Some t →
    k ∈ ["model"; "max_tokens"; "temperature"] →
    keywords c !! k = Some v →
    ∃ params, requests (trace (perform op c w)) = requests (trace w) ++ [params]
      ∧ params !! k = Some v.

(** Single-turn chat always sends the one-element user conversation. *)
Definition single_turn_claim : Prop :=
  ∀ c fr w t,
    bind_chat "message" c = inr fr → client (self w) = Some t →
    ∃ params, requests (trace (chat c w).2) = requests (trace w) ++ [params]
      ∧ params !! "messages" = Some (user_turn (arg0 fr)).

(** An explicit credential string is what construction stores, whatever
    the environment holds. *)
Definition explicit_credential_claim : Prop :=
  ∀ Anthropic c s w,
    bind_init c = inr (PStr s) →
    api_key (self (construct Anthropic c w).2) = Some (PStr s)
    ∧ EvGetenv "ANTHROPIC_API_KEY" ∉ trace (construct Anthropic c w).2.

(** The stream of a streaming chat is released however the loop over
    it is left: when the stream ends, when it raises, and when the
    caller stops iterating. *)
Definition released_on_every_exit_claim : Prop :=
  ∀ fr w t n,
    client (self w) = Some t →
    open_streams (trace (for_each n (GenCreated fr) w).2)
    = open_streams (trace w).

(** Whatever the transport raises when a stream is opened is what the
    caller of the streaming chat receives. *)
Definition stream_errors_unchanged_claim : Prop :=
  ∀ fr w t e,
    client (self w) = Some t →
    (∀ params, messages_stream t params = inl e) →
    (gen_next (GenCreated fr) w).1.1 = Raised e.

(** A stub that refuses every request and every stream with [e]. *)
Definition refusing_stub (e : exn) : Transport :=
  {| messages_create := fun _ => inl e;
     messages_stream := fun _ => inl e |}.

(** * The demonstration programs

    [claude_client.py] ends with a block run when the file is executed
    as a script, and [example_usage.py] is a script of five examples and
    a [main].  Both print; the text written to standard output is kept
    beside the world. *)

(** The keys every request of an operation holds. *)
Definition base_keys (op : ChatOp) : gset string :=
  match op with
  | Streaming => {[ "model"; "messages"; "max_tokens"; "temperature"; "stream" ]}
  | _ => {[ "model"; "messages"; "max_tokens"; "temperature" ]}
  end.

(** The request map built from the base entries [base] and a frame. *)
Definition request_of (base : list (string * pyval)) (fr : Frame)
    : gmap string pyval :=
  let params := spread (dict_literal base) (kwargs fr) in
  if truthy (system_prompt fr)
  then <["system" := system_prompt fr]> params
  else params.

(** The request of a call that passes the conversation and, at most, a
    model and a system instruction, and leaves the rest to the defaults. *)
Definition plain_request (model : string) (messages : pyval)
    (system : option string) (stream : bool) : gmap string pyval :=
  dict_literal
    ([("model", PStr model); ("messages", messages);
      ("max_tokens", PInt 1024); ("temperature", PFloat float_one)]
     ++ (if stream then [("stream", PBool true)] else [])
     ++ match system with Some s => [("system", PStr s)] | None => [] end).

Module Console.

(** The world and what has been written to standard output, one entry
    per call of [print]. *)
Record Console : Type := {
  world : World;
  stdout : list string
}.

(** A statement returns, raises, or is still running when the steps
    allotted to a loop over a stream are used up. *)
Inductive Outcome (A : Type) : Type :=
| Returned (a : A)
| Threw (e : exn)
| Unfinished.
Arguments Returned {A} a.
Arguments Threw {A} e.
Arguments Unfinished {A}.

Definition P (A : Type) : Type := Console -> Outcome A * Console.

Definition pret {A} (a : A) : P A := fun c => (Returned a, c).

Definition pbind {A B} (m : P A) (k : A -> P B) : P B :=
  fun c =>
    match m c with
    | (Returned a, c') => k a c'
    | (Threw e, c') => (Threw e, c')
    | (Unfinished, c') => (Unfinished, c')
    end.

Notation "'let!' x := m 'in' k" := (pbind m (fun x => k))
  (at level 10, x name, m at level 100, k at level 200).
Notation "m ;;; k" := (pbind m (fun _ => k))
  (at level 100, k at level 200, right associativity).

(** A method call or a library call made from the script. *)
Definition call {A} (m : M A) : P A :=
  fun c =>
    match m (world c) with
    | (inr a, w) => (Returned a, {| world := w; stdout := stdout c |})
    | (inl e, w) => (Threw e, {| world := w; stdout := stdout c |})
    end.

(** The line feed. *)
Definition nl : string := String (Ascii.ascii_of_nat 10) EmptyString.

(** [print] of the arguments [args] with [end=end_]: the arguments
    separated by spaces, then [end_]. *)
Definition py_print (args : list string) (end_ : string) : P unit :=
  fun c => (Returned tt,
            {| world := world c;
               stdout := stdout c ++ [String.concat " " args +:+ end_] |}).

(** [s * n] on strings. *)
Fixpoint str_mul (s : string) (n : nat) : string :=
  match n with
  | O => ""
  | S n' => s +:+ str_mul s n'
  end.

(** [try: body / except <class> as e: handler e], where [catches] tells
    the exceptions of the class. *)
Definition try_except {A} (body : P A) (catches : exn -> bool)
    (handler : exn -> P A) : P A :=
  fun c =>
    match body c with
    | (Threw e, c') => if catches e then handler e c' else (Threw e, c')
    | r => r
    end.

Definition is_ValueError (e : exn) : bool :=
  match e with
  | ValueError _ => true
  | _ => false
  end.

(** [except Exception]: every exception but those outside the
    [Exception] class. *)
Definition is_Exception (e : exn) : bool :=
  match e with
  | NotAnException _ => false
  | _ => true
  end.

(** [for x in xs: body x] over a list. *)
Fixpoint for_list {A} (xs : list A) (body : A -> P unit) : P unit :=
  match xs with
  | [] => pret tt
  | x :: xs' => body x ;;; for_list xs' body
  end.

(** [for chunk in gen: print(chunk, end="", flush=True)], followed for
    at most [n] resumptions of the generator. *)
Fixpoint print_chunks (n : nat) (g : Generator) : P unit :=
  match n with
  | O => fun c => (Unfinished, c)
  | S n' =>
      fun c =>
        match gen_next g (world c) with
        | ((Yielded t, g'), w) =>
            (py_print [t] "" ;;; print_chunks n' g')
              {| world := w; stdout := stdout c |}
        | ((StopIteration, _), w) =>
            (Returned tt, {| world := w; stdout := stdout c |})
        | ((Raised e, _), w) =>
            (Threw e, {| world := w; stdout := stdout c |})
        end
  end.

Section Scripts.

(** [anthropic.Anthropic(api_key=k)]. *)
Variable Anthropic : pyval -> Transport.

(** [str(e)] for the exceptions that are not a [ValueError]. *)
Variable describe : exn -> string.

(** [str(e)]: a [ValueError] made from one string prints as it. *)
Definition str_exn (e : exn) : string :=
  match e with
  | ValueError msg => msg
  | _ => describe e
  end.

(** The block under [if __name__ == "__main__":] of [claude_client.py]. *)
Definition claude_client_main (n : nat) : P unit :=
  try_except
    (call (construct Anthropic no_arguments) ;;;
     let! response :=
       call (chat {| positional := [PStr "Hello, Claude! Can you introduce yourself?"];
                     keywords := ∅ |}) in
     py_print ["Claude:"; response] nl ;;;
     let! response :=
       call (chat {| positional := [PStr "What is the capital of France?"];
                     keywords :=
                       {[ "system_prompt" :=
                            PStr "You are a helpful assistant that provides accurate information." ]} |}) in
     py_print [nl +:+ "Claude:"; response] nl ;;;
     py_print [nl +:+ "Streaming response:"] nl ;;;
     let! g :=
       call (chat_stream {| positional := [PStr "Tell me a short joke."];
                            keywords := ∅ |}) in
     print_chunks n g ;;;
     py_print [] nl)
    is_ValueError
    (fun e =>
       py_print ["Error: " +:+ str_exn e] nl ;;;
       py_print [nl +:+ "Please set your ANTHROPIC_API_KEY environment variable:"] nl ;;;
       py_print ["export ANTHROPIC_API_KEY='your-api-key-here'"] nl).

(** The functions of [example_usage.py].  The module calls
    [load_dotenv()] when it is imported; the scripts below start in the
    world that call leaves. *)

Definition example_basic_chat : P unit :=
  py_print [str_mul "=" 50] nl ;;;
  py_print ["Example 1: Basic Chat"] nl ;;;
  py_print [str_mul "=" 50] nl ;;;
  call (construct Anthropic no_arguments) ;;;
  let! response :=
    call (chat {| positional := [PStr "What is artificial intelligence?"];
                  keywords := ∅ |}) in
  py_print ["Response: " +:+ response +:+ nl] nl.

Definition example_system_prompt : P unit :=
  py_print [str_mul "=" 50] nl ;;;
  py_print ["Example 2: Chat with System Prompt"] nl ;;;
  py_print [str_mul "=" 50] nl ;;;
  call (construct Anthropic no_arguments) ;;;
  let! response :=
    call (chat {| positional := [PStr "Explain quantum computing in simple terms."];
                  keywords :=
                    {[ "system_prompt" :=
                         PStr "You are a science educator who explains complex topics in simple, engaging ways." ]} |}) in
  py_print ["Response: " +:+ response +:+ nl] nl.

Definition example_streaming (n : nat) : P unit :=
  py_print [str_mul "=" 50] nl ;;;
  py_print ["Example 3: Streaming Response"] nl ;;;
  py_print [str_mul "=" 50] nl ;;;
  call (construct Anthropic no_arguments) ;;;
  py_print ["Response (streaming): "] "" ;;;
  let! g :=
    call (chat_stream {| positional := [PStr "Write a haiku about coding."];
                         keywords := ∅ |}) in
  print_chunks n g ;;;
  py_print [nl] nl.

Definition example_conversation_history : P unit :=
  py_print [str_mul "=" 50] nl ;;;
  py_print ["Example 4: Conversation with History"] nl ;;;
  py_print [str_mul "=" 50] nl ;;;
  call (construct Anthropic no_arguments) ;;;
  let messages :=
    PList [PDict [("role", PStr "user"); ("content", PStr "My name is Alice.")];
           PDict [("role", PStr "assistant");
                  ("content", PStr "Nice to meet you, Alice! How can I help you today?")];
           PDict [("role", PStr "user"); ("content", PStr "What's my name?")]] in
  let! response :=
    call (chat_with_history {| positional := [messages]; keywords := ∅ |}) in
  py_print ["Response: " +:+ response +:+ nl] nl.

Definition example_different_models : P unit :=
  py_print [str_mul "=" 50] nl ;;;
  py_print ["Example 5: Using Different Models"] nl ;;;
  py_print [str_mul "=" 50] nl ;;;
  call (construct Anthropic no_arguments) ;;;
  let! models := call (get_available_models no_arguments) in
  py_print ["Available models:"] nl ;;;
  for_list models (fun model => py_print ["  - " +:+ model] nl) ;;;
  py_print [nl +:+ "Using Claude Haiku:"] nl ;;;
  let! response :=
    call (chat {| positional := [PStr "What is 2+2?"];
                  keywords := {[ "model" := PStr "claude-3-5-haiku-20241022" ]} |}) in
  py_print ["Response: " +:+ response +:+ nl] nl.

Definition main (n : nat) : P unit :=
  try_except
    (let! key := call (getenv "ANTHROPIC_API_KEY") in
     if negb (truthy key)
     then
       py_print ["Error: ANTHROPIC_API_KEY environment variable not set."] nl ;;;
       py_print ["Please set it in your .env file or export it:"] nl ;;;
       py_print ["export ANTHROPIC_API_KEY='your-api-key-here'"] nl
     else
       example_basic_chat ;;;
       example_system_prompt ;;;
       example_streaming n ;;;
       example_conversation_history ;;;
       example_different_models)
    is_Exception
    (fun e => py_print ["Error: " +:+ str_exn e] nl).


End Scripts.

(** A console with nothing printed yet, before any instance exists. *)
Definition fresh_console (env : gmap string string) : Console :=
  {| world := {| environ := env; self := blank; trace := [] |};
     stdout := [] |}.

(** An environment that holds the credential. *)
Definition with_key : gmap string string :=
  {[ "ANTHROPIC_API_KEY" := "sk-env" ]}.

End Console.

Import Console.

(** * Argument binding *)

Lemma surplus_param (sig : list Param) (kw : gmap string pyval) (k : string) :
  k ∈ p_name <$> sig → surplus sig kw !! k = None.
Proof.
  unfold surplus. induction sig as [|p sig IH]; cbn [fmap list_fmap foldr].
  - by intros ?%elem_of_nil.
  - intros [->|Hin]%elem_of_cons.
    + apply lookup_delete_eq.
    + destruct (decide (p_name p = k)) as [->|Hne].
      * apply lookup_delete_eq.
      * rewrite lookup_delete_ne by done. by apply IH.
Qed.

Lemma surplus_other (sig : list Param) (kw : gmap string pyval) (k : string) :
  k ∉ p_name <$> sig → surplus sig kw !! k = kw !! k.
Proof.
  unfold surplus. induction sig as [|p sig IH]; cbn [fmap list_fmap foldr].
  - done.
  - intros [Hne Hnin]%not_elem_of_cons.
    rewrite lookup_delete_ne by done. by apply IH.
Qed.

Lemma bind_chat_inv (first : string) (c : Call) (fr : Frame) :
  bind_chat first c = inr fr →
  keywords c !! "self" = None
  ∧ multiple_values (chat_signature first) (positional c) (keywords c) = false
  ∧ (length (positional c) ≤ 5)%nat
  ∧ fill (chat_signature first) (positional c) (keywords c)
    = Some [arg0 fr; model fr; system_prompt fr; max_tokens fr; temperature fr]
  ∧ kwargs fr = surplus (chat_signature first) (keywords c).
Proof.
  unfold bind_chat, bind_args. intros H.
  case_bool_decide as Hself; [done|].
  destruct (multiple_values _ _ _) eqn:Hmv; [done|].
  cbn [negb andb] in H.
  case_bool_decide as Hlen; [done|].
  destruct (fill _ _ _) as [vs|] eqn:Hfill; [|done].
  destruct vs as [|a [|m [|s [|t [|temp [|? ?]]]]]]; try done.
  injection H as <-. simpl.
  split_and!; try done.
  - by apply eq_None_not_Some.
  - simpl in Hlen. lia.
Qed.

Lemma multiple_values_true (sig : list Param) (pos : list pyval)
    (kw : gmap string pyval) (i : nat) (p : Param) :
  sig !! i = Some p → (i < length pos)%nat → is_Some (kw !! p_name p) →
  multiple_values sig pos kw = true.
Proof.
  revert pos i. induction sig as [|q sig IH]; intros pos i Hp Hi Hk; [done|].
  destruct pos as [|v pos]; [simpl in Hi; lia|].
  cbn [multiple_values]. destruct i as [|i].
  - injection Hp as ->. by destruct Hk as [? ->].
  - destruct (kw !! p_name q); [done|].
    apply (IH pos i); [done | simpl in Hi; lia | done].
Qed.

Lemma fill_keyword (sig : list Param) (pos vs : list pyval)
    (kw : gmap string pyval) (i : nat) (p : Param) (v : pyval) :
  multiple_values sig pos kw = false → fill sig pos kw = Some vs →
  sig !! i = Some p → kw !! p_name p = Some v → vs !! i = Some v.
Proof.
  revert pos vs i. induction sig as [|q sig IH]; intros pos vs i Hmv Hf Hp Hk; [done|].
  cbn [multiple_values fill] in Hmv, Hf.
  destruct pos as [|a pos].
  - destruct i as [|i].
    + injection Hp as ->. rewrite Hk in Hf.
      destruct (fill sig [] kw); [|done]. by injection Hf as <-.
    + assert (∃ a vs', fill sig [] kw = Some vs' ∧ vs = a :: vs') as (a & vs' & Hf' & ->).
      { destruct (kw !! p_name q); [|destruct (p_default q); [|done]];
          (destruct (fill sig [] kw) as [vs'|]; [|done]); injection Hf as <-; eauto. }
      apply (IH [] vs' i); try done. by destruct sig.
  - destruct (kw !! p_name q) eqn:Hq; [done|].
    destruct (fill sig pos kw) as [vs'|] eqn:Hf'; [|done]. injection Hf as <-.
    destruct i as [|i].
    + injection Hp as ->. congruence.
    + by apply (IH pos vs' i).
Qed.

Lemma fill_positional (sig : list Param) (pos vs : list pyval)
    (kw : gmap string pyval) (i : nat) (v : pyval) :
  fill sig pos kw = Some vs → (i < length sig)%nat → pos !! i = Some v →
  vs !! i = Some v.
Proof.
  revert pos vs i. induction sig as [|q sig IH]; intros pos vs i Hf Hi Hv.
  - simpl in Hi. lia.
  - destruct pos as [|a pos]; [done|]. cbn [fill] in Hf.
    destruct (fill sig pos kw) as [vs'|] eqn:Hf'; [|done]. injection Hf as <-.
    destruct i as [|i]; [done|]. apply (IH pos vs' i); [done| simpl in Hi; lia | done].
Qed.

Lemma fill_default (sig : list Param) (pos vs : list pyval)
    (kw : gmap string pyval) (i : nat) (p : Param) :
  fill sig pos kw = Some vs → sig !! i = Some p → pos !! i = None →
  kw !! p_name p = None → vs !! i = p_default p.
Proof.
  revert pos vs i. induction sig as [|q sig IH]; intros pos vs i Hf Hp Hv Hk; [done|].
  cbn [fill] in Hf. destruct pos as [|a pos].
  - destruct i as [|i].
    + injection Hp as ->. rewrite Hk in Hf.
      destruct (p_default p); [|done].
      destruct (fill sig [] kw); [|done]. by injection Hf as <-.
    + assert (∃ a vs', fill sig [] kw = Some vs' ∧ vs = a :: vs') as (a & vs' & Hf' & ->).
      { destruct (kw !! p_name q); [|destruct (p_default q); [|done]];
          (destruct (fill sig [] kw) as [vs'|]; [|done]); injection Hf as <-; eauto. }
      by apply (IH [] vs' i).
  - destruct i as [|i]; [done|].
    destruct (fill sig pos kw) as [vs'|] eqn:Hf'; [|done]. injection Hf as <-.
    by apply (IH pos vs' i).
Qed.

Lemma lookup_spread (d e : gmap string pyval) (k : string) :
  spread d e !! k = match e !! k with Some v => Some v | None => d !! k end.
Proof. unfold spread. rewrite lookup_union. by destruct (e !! k), (d !! k). Qed.

Lemma bind_chat_kwargs_param (first : string) (c : Call) (fr : Frame) (k : string) :
  bind_chat first c = inr fr →
  k ∈ [first; "model"; "system_prompt"; "max_tokens"; "temperature"] →
  kwargs fr !! k = None.
Proof.
  intros (_ & _ & _ & _ & ->)%bind_chat_inv Hk. by apply surplus_param.
Qed.

Lemma bind_chat_kwargs_other (first : string) (c : Call) (fr : Frame) (k : string) :
  bind_chat first c = inr fr →
  k ∉ [first; "model"; "system_prompt"; "max_tokens"; "temperature"] →
  kwargs fr !! k = keywords c !! k.
Proof.
  intros (_ & _ & _ & _ & ->)%bind_chat_inv Hk. by apply surplus_other.
Qed.

Lemma request_facts_intro (first : string) (c : Call) (fr : Frame)
    (messages : pyval) (d : gmap string pyval) :
  bind_chat first c = inr fr →
  d !! "model" = Some (model fr) →
  d !! "max_tokens" = Some (max_tokens fr) →
  d !! "temperature" = Some (temperature fr) →
  d !! "messages" = Some messages →
  d !! "system" = None →
  request_facts fr messages
    (if truthy (system_prompt fr)
     then <["system" := system_prompt fr]> (spread d (kwargs fr))
     else spread d (kwargs fr)).
Proof.
  intros Hb Hm Ht Hte Hms Hs.
  assert (kwargs fr !! "model" = None) as Km
    by (apply (bind_chat_kwargs_param first c); [done | set_solver]).
  assert (kwargs fr !! "max_tokens" = None) as Kt
    by (apply (bind_chat_kwargs_param first c); [done | set_solver]).
  assert (kwargs fr !! "temperature" = None) as Kte
    by (apply (bind_chat_kwargs_param first c); [done | set_solver]).
  unfold request_facts.
  destruct (truthy (system_prompt fr)).
  - rewrite !lookup_insert_ne by done. rewrite lookup_insert_eq, !lookup_spread.
    rewrite Km, Kt, Kte, Hms. split_and!; try done.
    + by destruct (kwargs fr !! "messages").
    + intros k v Hk Hne. rewrite lookup_insert_ne by done.
      by rewrite lookup_spread, Hk.
  - rewrite !lookup_spread. rewrite Km, Kt, Kte, Hms, Hs. split_and!; try done.
    + by destruct (kwargs fr !! "messages").
    + by destruct (kwargs fr !! "system").
    + intros k v Hk Hne. by rewrite lookup_spread, Hk.
Qed.

Lemma create_run (params : gmap string pyval) (w : World) (t : Transport) :
  client (self w) = Some t →
  (let* response := create params in first_text response) w
  = (reply t params, log w [EvCreate params]).
Proof.
  intros Hc. unfold create, get_client, bind, emit, lift, reply, first_text.
  rewrite Hc. cbn.
  destruct (messages_create t params) as [e|r]; [reflexivity|].
  destruct (content r); reflexivity.
Qed.

Lemma chat_run (c : Call) (fr : Frame) (w : World) (t : Transport) :
  bind_chat "message" c = inr fr → client (self w) = Some t →
  ∃ params, chat c w = (reply t params, log w [EvCreate params])
    ∧ request_facts fr (user_turn (arg0 fr)) params.
Proof.
  intros Hb Hc. eexists. split.
  - unfold chat. unfold bind at 1. unfold lift. rewrite Hb. cbv zeta.
    by apply create_run.
  - apply (request_facts_intro "message" c); [done|..]; by simplify_map_eq.
Qed.

Lemma chat_with_history_run (c : Call) (fr : Frame) (w : World) (t : Transport) :
  bind_chat "messages" c = inr fr → client (self w) = Some t →
  ∃ params, chat_with_history c w = (reply t params, log w [EvCreate params])
    ∧ request_facts fr (arg0 fr) params.
Proof.
  intros Hb Hc. eexists. split.
  - unfold chat_with_history. unfold bind at 1. unfold lift. rewrite Hb. cbv zeta.
    by apply create_run.
  - apply (request_facts_intro "messages" c); [done|..]; by simplify_map_eq.
Qed.

Lemma log_log (w : World) (l1 l2 : list Event) :
  log (log w l1) l2 = log w (l1 ++ l2).
Proof. unfold log. cbn. by rewrite <- app_assoc. Qed.

Lemma chat_stream_run (c : Call) (fr : Frame) (w : World) :
  bind_chat "message" c = inr fr → chat_stream c w = (inr (GenCreated fr), w).
Proof. intros Hb. unfold chat_stream, bind, lift. by rewrite Hb. Qed.

Lemma chat_stream_rejected (c : Call) (e : exn) (w : World) :
  bind_chat "message" c = inl e → chat_stream c w = (inl e, w).
Proof. intros Hb. unfold chat_stream, bind, lift. by rewrite Hb. Qed.

Lemma open_run (params : gmap string pyval) (w : World) (t : Transport) :
  client (self w) = Some t →
  resume (let* t := get_client in
          emit (EvStream params) ;;
          let* s := lift (messages_stream t params) in
          emit EvEnter ;;
          stream_loop (fragments s) (failure s)) w
  = match messages_stream t params with
    | inl e =>
        ((Raised (leaving_generator e), GenClosed), log w [EvStream params])
    | inr s =>
        gen_next (GenSuspended (fragments s) (failure s))
          (log w [EvStream params; EvEnter])
    end.
Proof.
  intros Hc. unfold resume, get_client, bind, emit, lift. rewrite Hc. cbn.
  destruct (messages_stream t params) as [e|s]; [reflexivity|].
  unfold log. cbn. by rewrite <- app_assoc.
Qed.

Lemma gen_next_created (c : Call) (fr : Frame) :
  bind_chat "message" c = inr fr →
  ∃ params,
    request_facts fr (user_turn (arg0 fr)) params
    ∧ ∀ w t, client (self w) = Some t →
        gen_next (GenCreated fr) w
        = match messages_stream t params with
          | inl e =>
        ((Raised (leaving_generator e), GenClosed), log w [EvStream params])
          | inr s =>
              gen_next (GenSuspended (fragments s) (failure s))
                (log w [EvStream params; EvEnter])
          end.
Proof.
  intros Hb. eexists. split; last first.
  - intros w t Hc. cbn [gen_next]. unfold chat_stream_body. cbv zeta.
    by apply open_run.
  - apply (request_facts_intro "message" c); [done|..]; by simplify_map_eq.
Qed.

Lemma for_each_suspended (rest : list string) (fail : option exn)
    (w : World) (n : nat) :
  (length rest < n)%nat →
  for_each n (GenSuspended rest fail) w
  = ((rest, ending_of fail), log w [EvExit]).
Proof.
  revert n. induction rest as [|t rest IH]; intros n Hn.
  - destruct n as [|n]; [simpl in Hn; lia|].
    cbn. by destruct fail as [[]|].
  - destruct n as [|n]; [simpl in Hn; lia|].
    cbn [for_each gen_next stream_loop]. unfold resume, ret.
    rewrite IH by (simpl in Hn; lia). done.
Qed.

Lemma for_each_opened (rest : list string) (fail : option exn)
    (fr : Frame) (w w1 : World) (n : nat) :
  gen_next (GenCreated fr) w = gen_next (GenSuspended rest fail) w1 →
  for_each n (GenCreated fr) w = for_each n (GenSuspended rest fail) w1
  ∨ n = O.
Proof. intros H. destruct n; [by right|left]. cbn [for_each]. by rewrite H. Qed.

Lemma for_each_created (c : Call) (fr : Frame) :
  bind_chat "message" c = inr fr →
  ∃ params,
    request_facts fr (user_turn (arg0 fr)) params
    ∧ (∀ w t e n, client (self w) = Some t →
         messages_stream t params = inl e →
         for_each (S n) (GenCreated fr) w
         = (([], Failed (leaving_generator e)), log w [EvStream params]))
    ∧ (∀ w t s n, client (self w) = Some t →
         messages_stream t params = inr s →
         (length (fragments s) < n)%nat →
         for_each n (GenCreated fr) w
         = ((fragments s, ending_of (failure s)),
            log w [EvStream params; EvEnter; EvExit])).
Proof.
  intros Hb.
  destruct (gen_next_created c fr Hb) as (params & Hf & Hnext).
  exists params. split_and!; [done|..].
  - intros w t e n Hc He. specialize (Hnext w t Hc) as Hn.
    rewrite He in Hn. cbn [for_each]. by rewrite Hn.
  - intros w t s n Hc Hs Hlen. specialize (Hnext w t Hc) as Hn.
    rewrite Hs in Hn.
    destruct (for_each_opened _ _ _ _ _ n Hn) as [->| ->]; [|lia].
    rewrite for_each_suspended by done. by rewrite log_log.
Qed.

Lemma preserves_ret {A} (a : A) : preserves (ret a).
Proof. by intros w. Qed.

Lemma preserves_raise {A} (e : exn) : preserves (@raise A e).
Proof. by intros w. Qed.

Lemma preserves_lift {A} (r : exn + A) : preserves (lift r).
Proof. by intros w. Qed.

Lemma preserves_emit (ev : Event) : preserves (emit ev).
Proof. by intros w. Qed.

Lemma preserves_get_client : preserves get_client.
Proof. intros w. unfold get_client. by destruct (client (self w)). Qed.

Lemma preserves_bind {A B} (m : M A) (k : A → M B) :
  preserves m → (∀ a, preserves (k a)) → preserves (bind m k).
Proof.
  intros Hm Hk w. unfold bind. specialize (Hm w).
  destruct (m w) as [[e|a] w1]; [done|].
  destruct (Hk a w1) as [-> ->]. done.
Qed.

Create HintDb facade.
#[local] Hint Resolve preserves_ret preserves_raise preserves_lift preserves_emit
  preserves_get_client : facade.
#[local] Hint Extern 2 (preserves (bind _ _)) =>
  apply preserves_bind; [|intros ?] : facade.

Lemma preserves_first_text (r : Message) : preserves (first_text r).
Proof. unfold first_text. destruct (content r); auto with facade. Qed.
#[local] Hint Resolve preserves_first_text : facade.

Lemma preserves_create (params : gmap string pyval) : preserves (create params).
Proof. unfold create. auto with facade. Qed.
#[local] Hint Resolve preserves_create : facade.

Lemma preserves_chat (c : Call) : preserves (chat c).
Proof. unfold chat. auto 6 with facade. Qed.

Lemma preserves_chat_with_history (c : Call) : preserves (chat_with_history c).
Proof. unfold chat_with_history. auto 6 with facade. Qed.

Lemma preserves_chat_stream (c : Call) : preserves (chat_stream c).
Proof. unfold chat_stream. auto with facade. Qed.

Lemma preserves_get_available_models (c : Call) :
  preserves (get_available_models c).
Proof. unfold get_available_models. auto with facade. Qed.

Lemma preserves_stream_loop (rest : list string) (fail : option exn) :
  preserves (stream_loop rest fail).
Proof.
  unfold stream_loop. destruct rest; [|auto with facade].
  destruct fail as [[]|]; auto with facade.
Qed.
#[local] Hint Resolve preserves_stream_loop : facade.

Lemma preserves_chat_stream_body (fr : Frame) : preserves (chat_stream_body fr).
Proof. unfold chat_stream_body. auto 8 with facade. Qed.

Lemma resume_facade (m : M (option (string * Generator))) (w : World) :
  preserves m →
  self (resume m w).2 = self w ∧ environ (resume m w).2 = environ w.
Proof.
  intros Hm. unfold resume. specialize (Hm w).
  destruct (m w) as [[e|[[t g]|]] w1]; done.
Qed.

Lemma gen_next_facade (g : Generator) (w : World) :
  self (gen_next g w).2 = self w ∧ environ (gen_next g w).2 = environ w.
Proof.
  destruct g; cbn [gen_next]; [| |done]; apply resume_facade.
  - apply preserves_chat_stream_body.
  - apply preserves_stream_loop.
Qed.

Lemma gen_close_facade (g : Generator) (w : World) :
  self (gen_close g w).2 = self w ∧ environ (gen_close g w).2 = environ w.
Proof. by destruct g. Qed.

Lemma for_each_facade (n : nat) (g : Generator) (w : World) :
  self (for_each n g w).2 = self w ∧ environ (for_each n g w).2 = environ w.
Proof.
  revert g w. induction n as [|n IH]; intros g w; [done|].
  cbn [for_each]. pose proof (gen_next_facade g w) as Hs.
  destruct (gen_next g w) as [[[t| |e] g'] w1]; [|done..].
  specialize (IH g' w1). destruct (for_each n g' w1) as [[ts e] w2].
  cbn in *. destruct IH as [-> ->]. done.
Qed.

Lemma open_streams_app (l1 l2 : list Event) :
  open_streams (l1 ++ l2) = (open_streams l1 + open_streams l2)%Z.
Proof.
  induction l1 as [|ev l1 IH]; [done|].
  cbn [app open_streams foldr]. fold (open_streams (l1 ++ l2)).
  fold (open_streams l1). rewrite IH. destruct ev; lia.
Qed.

Lemma stream_loop_balance (rest : list string) (fail : option exn) (w : World) :
  match resume (stream_loop rest fail) w with
  | ((r, g'), w') =>
      (open_streams (trace w') - live g' = open_streams (trace w) - 1)%Z
      ∧ match r with Yielded _ => True | _ => g' = GenClosed end
  end.
Proof.
  destruct rest as [|t rest].
  - destruct fail as [[]|]; cbn; rewrite open_streams_app; cbn.
    all: split; (lia || done).
  - cbn. split; [lia|done].
Qed.

Lemma gen_next_balance (g : Generator) (w : World) :
  match gen_next g w with
  | ((r, g'), w') =>
      (open_streams (trace w') - live g' = open_streams (trace w) - live g)%Z
      ∧ match r with Yielded _ => True | _ => g' = GenClosed end
  end.
Proof.
  destruct g as [fr|rest fail|]; cbn [gen_next live].
  - unfold chat_stream_body. cbv zeta.
    match goal with |- context [EvStream ?p] => generalize p end. intros params.
    unfold resume at 1, get_client, bind at 1.
    destruct (client (self w)) as [t|]; [|cbn; split; [lia|done]].
    unfold bind at 1, emit at 1, bind at 1, lift at 1.
    destruct (messages_stream t params) as [e|s].
    + cbn. rewrite open_streams_app. cbn. split; [lia|done].
    + unfold bind at 1, emit at 1.
      pose proof (stream_loop_balance (fragments s) (failure s)
        {| environ := environ w; self := self w;
           trace := (trace w ++ [EvStream params]) ++ [EvEnter] |}) as H.
      unfold resume in H. cbn in H. cbn.
      destruct (stream_loop _ _ _) as [[e|[[t' g']|]] w1];
        rewrite !open_streams_app in H; cbn in H; destruct H as [H1 H2];
        cbn [live]; (split; [lia|done]).
  - apply stream_loop_balance.
  - split; [lia|done].
Qed.

Lemma gen_close_balance (g : Generator) (w : World) :
  open_streams (trace (gen_close g w).2)
  = (open_streams (trace w) - live g)%Z
  ∧ (gen_close g w).1 = GenClosed.
Proof.
  destruct g; cbn; rewrite ?open_streams_app; cbn; split; (lia || done).
Qed.

Lemma for_each_balance (n : nat) (g : Generator) (w : World) :
  match for_each n g w with
  | ((_, e), w') =>
      (open_streams (trace w')
         - match e with Pending g' => live g' | _ => 0 end
       = open_streams (trace w) - live g)%Z
  end.
Proof.
  revert g w. induction n as [|n IH]; intros g w; [done|].
  cbn [for_each]. pose proof (gen_next_balance g w) as Hs.
  destruct (gen_next g w) as [[[t| |e] g'] w1].
  - specialize (IH g' w1). destruct (for_each n g' w1) as [[ts e] w2].
    destruct Hs as [Hs _]. lia.
  - destruct Hs as [Hs ->]. cbn in Hs. lia.
  - destruct Hs as [Hs ->]. cbn in Hs. lia.
Qed.

(** * What a bound call holds *)

Lemma bind_chat_first (first : string) (c : Call) (fr : Frame) :
  bind_chat first c = inr fr → first_argument first c = Some (arg0 fr).
Proof.
  intros (_ & Hmv & _ & Hf & _)%bind_chat_inv. unfold first_argument.
  destruct (positional c) as [|v pos].
  - destruct (keywords c !! first) as [v|] eqn:Hk;
      [|cbn [chat_signature fill p_name p_default] in Hf; by rewrite Hk in Hf].
    pose proof (fill_keyword _ _ _ _ 0 _ v Hmv Hf eq_refl Hk) as H.
    cbn in H. congruence.
  - pose proof (fill_positional _ _ _ _ 0 v Hf) as H.
    cbn in H. rewrite H; [done | lia | done].
Qed.

Lemma bind_chat_keyword (first : string) (c : Call) (fr : Frame)
    (i : nat) (k : string) (v : pyval) :
  bind_chat first c = inr fr →
  (i, k) ∈ [(1%nat, "model"); (3%nat, "max_tokens"); (4%nat, "temperature")] →
  keywords c !! k = Some v →
  [arg0 fr; model fr; system_prompt fr; max_tokens fr; temperature fr] !! i
  = Some v.
Proof.
  intros (_ & Hmv & _ & Hf & _)%bind_chat_inv Hik Hk.
  rewrite !elem_of_cons in Hik.
  destruct Hik as [[= -> ->]|[[= -> ->]|[[= -> ->]|[]%elem_of_nil]]];
    by eapply fill_keyword.
Qed.

Lemma bind_chat_omitted_system (first : string) (c : Call) (fr : Frame) :
  bind_chat first c = inr fr →
  positional c !! 2%nat = None → keywords c !! "system_prompt" = None →
  system_prompt fr = PNone.
Proof.
  intros (_ & _ & _ & Hf & _)%bind_chat_inv Hp Hk.
  pose proof (fill_default _ _ _ _ 2 _ Hf eq_refl Hp Hk) as H.
  cbn in H. congruence.
Qed.

Lemma bind_chat_twice (first : string) (c : Call) (i : nat) (k : string) :
  (i, k) ∈ [(1%nat, "model"); (3%nat, "max_tokens"); (4%nat, "temperature")] →
  (i < length (positional c))%nat → is_Some (keywords c !! k) →
  bind_chat first c = inl (TypeError MultipleValues).
Proof.
  intros Hik Hi Hk. unfold bind_chat, bind_args.
  case_bool_decide; [done|].
  rewrite (multiple_values_true (chat_signature first) _ _ i
             {| p_name := k; p_default := chat_signature first !! i ≫= p_default |});
    [done| |done|done].
  rewrite !elem_of_cons in Hik.
  by destruct Hik as [[= -> ->]|[[= -> ->]|[[= -> ->]|[]%elem_of_nil]]].
Qed.

(** * Requests and operations *)

Lemma requests_app (l1 l2 : list Event) :
  requests (l1 ++ l2) = requests l1 ++ requests l2.
Proof. apply omap_app. Qed.

Lemma gen_next_suspended_requests (rest : list string) (fail : option exn)
    (w : World) :
  requests (trace (gen_next (GenSuspended rest fail) w).2) = requests (trace w).
Proof.
  destruct rest as [|t rest]; [|done].
  destruct fail as [[]|]; cbn; by rewrite requests_app, app_nil_r.
Qed.

Lemma perform_rejected (op : ChatOp) (c : Call) (e : exn) (w : World) :
  bind_chat (first_param op) c = inl e → perform op c w = w.
Proof.
  intros Hb. destruct op; cbn [perform first_param] in *.
  - unfold chat, bind, lift. by rewrite Hb.
  - by rewrite (chat_stream_rejected c e).
  - unfold chat_with_history, bind, lift. by rewrite Hb.
Qed.

Lemma perform_request (op : ChatOp) (c : Call) (fr : Frame) (w : World)
    (t : Transport) :
  bind_chat (first_param op) c = inr fr → client (self w) = Some t →
  ∃ params,
    requests (trace (perform op c w)) = requests (trace w) ++ [params]
    ∧ request_facts fr (own_messages op fr) params.
Proof.
  intros Hb Hc. destruct op; cbn [perform first_param own_messages] in *.
  - destruct (chat_run c fr w t Hb Hc) as (params & -> & Hf).
    exists params. split; [apply requests_app | done].
  - rewrite (chat_stream_run c fr w Hb).
    destruct (gen_next_created c fr Hb) as (params & Hf & Hnext).
    rewrite (Hnext w t Hc).
    exists params. split; [|done].
    destruct (messages_stream t params) as [e|s].
    + apply requests_app.
    + rewrite gen_next_suspended_requests. apply requests_app.
  - destruct (chat_with_history_run c fr w t Hb Hc) as (params & -> & Hf).
    exists params. split; [apply requests_app | done].
Qed.

(** * The model at work *)

Example chat_default_request :
  chat {| positional := [PStr "Hello, Claude!"]; keywords := ∅ |}
    (ready pong_stub)
  = (inr "pong",
     log (ready pong_stub)
       [EvCreate (dict_literal
          [("model", PStr "claude-3-5-sonnet-20241022");
           ("messages", user_turn (PStr "Hello, Claude!"));
           ("max_tokens", PInt 1024);
           ("temperature", PFloat float_one)])]).
Proof. vm_compute. reflexivity. Qed.

Example chat_model_given_twice :
  chat {| positional := [PStr "hi"; PStr "claude-3-opus-20240229"];
          keywords := {[ "model" := PStr "claude-3-haiku-20240307" ]} |}
    (ready pong_stub)
  = (inl (TypeError MultipleValues), ready pong_stub).
Proof. vm_compute. reflexivity. Qed.

Example chat_stream_extras_replace_flag :
  match gen_next (GenCreated
          {| arg0 := PStr "hi";
             model := PStr "claude-3-5-sonnet-20241022";
             system_prompt := PNone;
             max_tokens := PInt 1024;
             temperature := PFloat float_one;
             kwargs := {[ "stream" := PBool false ]} |}) (ready pong_stub) with
  | ((r, _), w) =>
      r = Yielded "a"
      ∧ (λ p, p !! "stream") <$> requests (trace w) = [Some (PBool false)]
  end.
Proof. vm_compute. by split. Qed.

Example construct_reads_environment :
  construct (fun _ => pong_stub) no_arguments
    {| environ := {[ "ANTHROPIC_API_KEY" := "sk-env" ]};
       self := blank; trace := [] |}
  = (inr tt,
     {| environ := {[ "ANTHROPIC_API_KEY" := "sk-env" ]};
        self := {| api_key := Some (PStr "sk-env"); client := Some pong_stub |};
        trace := [EvGetenv "ANTHROPIC_API_KEY"; EvAnthropic (PStr "sk-env")] |}).
Proof. vm_compute. reflexivity. Qed.

Example empty_reply_has_no_first_block :
  (chat {| positional := [PStr "hi"]; keywords := ∅ |}
     (ready {| messages_create := fun _ => inr {| content := [] |};
               messages_stream := fun _ => inl rate_limited |})).1
  = inl IndexError.
Proof. vm_compute. reflexivity. Qed.

(** * Precedence of extras and named parameters *)

(** C1, as stated, fails.  A caller who gives [model] both as the
    explicit parameter and among the extra keywords gets a [TypeError]
    from the call itself, and no request reaches the transport: here
    [chat("hi", "claude-3-opus-20240229", model="claude-3-haiku-20240307")]. *)
Lemma extras_override_refuted : ¬ extras_override_claim.
Proof.
  intros H.
  destruct (H SingleTurn
              {| positional := [PStr "hi"; PStr "claude-3-opus-20240229"];
                 keywords := {[ "model" := PStr "claude-3-haiku-20240307" ]} |}
              (ready pong_stub) pong_stub "model"
              (PStr "claude-3-haiku-20240307"))
    as (params & Hreq & _).
  - reflexivity.
  - apply list_elem_of_here.
  - reflexivity.
  - vm_compute in Hreq. discriminate Hreq.
Qed.

(** C1, amended.  In single-turn, streaming and multi-turn chat a
    keyword argument named [model], [max_tokens] or [temperature] is the
    named parameter itself: the [**kwargs] mapping of a bound call never
    holds that key, and the request map carries the keyword's value.
    When the same parameter is also given by position the call raises
    [TypeError] and nothing is sent.  The extras are merged after the
    base entries, so every key they do hold (other than [system]) reaches
    the request with the extras' value. *)
Theorem keyword_is_named_parameter (op : ChatOp) (c : Call) (w : World)
    (t : Transport) (i : nat) (k : string) (v : pyval) :
  client (self w) = Some t →
  (i, k) ∈ [(1%nat, "model"); (3%nat, "max_tokens"); (4%nat, "temperature")] →
  keywords c !! k = Some v →
  ((i < length (positional c))%nat →
     bind_chat (first_param op) c = inl (TypeError MultipleValues)
     ∧ perform op c w = w)
  ∧ (∀ e, bind_chat (first_param op) c = inl e → perform op c w = w)
  ∧ (∀ fr, bind_chat (first_param op) c = inr fr →
       kwargs fr !! k = None
       ∧ ∃ params,
           requests (trace (perform op c w)) = requests (trace w) ++ [params]
           ∧ params !! k = Some v
           ∧ (∀ k' v', kwargs fr !! k' = Some v' →
                (k' = "system" → truthy (system_prompt fr) = false) →
                params !! k' = Some v')).
Proof.
  intros Hc Hik Hk. split_and!.
  - intros Hi.
    assert (bind_chat (first_param op) c = inl (TypeError MultipleValues)) as Hb
      by (by apply (bind_chat_twice _ c i k)).
    split; [done|]. by apply (perform_rejected op c _ w Hb).
  - intros e Hb. by apply (perform_rejected op c e).
  - intros fr Hb.
    pose proof (bind_chat_keyword _ c fr i k v Hb Hik Hk) as Hv.
    destruct (perform_request op c fr w t Hb Hc)
      as (params & Hreq & Hm & Ht & Hte & _ & Hs & Hextra).
    assert (∀ k' v', kwargs fr !! k' = Some v' →
              (k' = "system" → truthy (system_prompt fr) = false) →
              params !! k' = Some v') as Hall.
    { intros k' v' Hk' Hsys. destruct (decide (k' = "system")) as [->|Hne].
      - by rewrite Hs, (Hsys eq_refl).
      - by apply Hextra. }
    rewrite !elem_of_cons in Hik.
    destruct Hik as [[= -> ->]|[[= -> ->]|[[= -> ->]|[]%elem_of_nil]]];
      cbn in Hv; injection Hv as Hv;
      (split; [apply (bind_chat_kwargs_param (first_param op) c);
                [done | set_solver]|]);
      exists params; (split_and!; [done | congruence | done]).
Qed.

Lemma keyword_is_named_parameter_witness :
  ∃ params,
    requests (trace (perform SingleTurn
      {| positional := [PStr "hi"];
         keywords := {[ "model" := PStr "claude-3-haiku-20240307" ]} |}
      (ready pong_stub))) = [params]
    ∧ params !! "model" = Some (PStr "claude-3-haiku-20240307").
Proof.
  destruct (keyword_is_named_parameter SingleTurn
    {| positional := [PStr "hi"];
       keywords := {[ "model" := PStr "claude-3-haiku-20240307" ]} |}
    (ready pong_stub) pong_stub 1 "model" (PStr "claude-3-haiku-20240307"))
    as (_ & _ & H).
  - reflexivity.
  - apply list_elem_of_here.
  - reflexivity.
  - destruct (H {| arg0 := PStr "hi";
                   model := PStr "claude-3-haiku-20240307";
                   system_prompt := PNone;
                   max_tokens := PInt 1024;
                   temperature := PFloat float_one;
                   kwargs := ∅ |}) as (_ & params & Hreq & Hm & _).
    + vm_compute. reflexivity.
    + exists params. split; [exact Hreq | exact Hm].
Defined.

(** * Single-turn and multi-turn chat *)

Lemma reply_first_block (t : Transport) (params : gmap string pyval)
    (r : Message) (b : ContentBlock) (bs : list ContentBlock) :
  messages_create t params = inr r → content r = b :: bs →
  reply t params = inr (text b).
Proof. intros Hr Hb. unfold reply. by rewrite Hr, Hb. Qed.

(** C2, as stated, fails.  [chat("ping", messages=[])] hands the
    transport the empty conversation of the extras, not the one-element
    user conversation. *)
Lemma single_turn_refuted : ¬ single_turn_claim.
Proof.
  intros H.
  destruct (H {| positional := [PStr "ping"];
                 keywords := {[ "messages" := PList [] ]} |}
              {| arg0 := PStr "ping";
                 model := PStr "claude-3-5-sonnet-20241022";
                 system_prompt := PNone;
                 max_tokens := PInt 1024;
                 temperature := PFloat float_one;
                 kwargs := {[ "messages" := PList [] ]} |}
              (ready pong_stub) pong_stub)
    as (params & Hreq & Hm).
  - vm_compute. reflexivity.
  - reflexivity.
  - vm_compute in Hreq. injection Hreq as <-.
    vm_compute in Hm. discriminate Hm.
Qed.

(** C2, amended.  Single-turn chat issues one synchronous call and
    returns the text of the first content block of the reply, so it
    returns [pong] whenever that block says so.  The request's
    [messages] entry is the one-element conversation made of the user
    turn with the input text, unless the extras hold a [messages] key,
    whose value is then sent instead. *)
Theorem chat_single_turn (c : Call) (fr : Frame) (w : World) (t : Transport) :
  bind_chat "message" c = inr fr → client (self w) = Some t →
  first_argument "message" c = Some (arg0 fr)
  ∧ ∃ params,
      chat c w = (reply t params, log w [EvCreate params])
      ∧ params !! "messages"
        = Some (default (user_turn (arg0 fr)) (keywords c !! "messages"))
      ∧ (∀ r b bs, messages_create t params = inr r → content r = b :: bs →
           (chat c w).1 = inr (text b))
      ∧ (∀ r bs, messages_create t params = inr r →
           content r = {| text := "pong" |} :: bs →
           (chat c w).1 = inr "pong").
Proof.
  intros Hb Hc. split; [by apply bind_chat_first|].
  destruct (chat_run c fr w t Hb Hc) as (params & Hrun & _ & _ & _ & Hm & _).
  exists params. split_and!; [done| |..].
  - rewrite Hm. rewrite (bind_chat_kwargs_other "message" c fr); [done|done|].
    rewrite !not_elem_of_cons. split_and!; try done. apply not_elem_of_nil.
  - intros r b bs Hr Hcont. rewrite Hrun. cbn. by eapply reply_first_block.
  - intros r bs Hr Hcont. rewrite Hrun. cbn.
    by rewrite (reply_first_block t params r _ bs Hr Hcont).
Qed.

Lemma chat_single_turn_witness :
  (chat {| positional := [PStr "ping"]; keywords := ∅ |} (ready pong_stub)).1
  = inr "pong".
Proof.
  destruct (chat_single_turn
    {| positional := [PStr "ping"]; keywords := ∅ |}
    {| arg0 := PStr "ping";
       model := PStr "claude-3-5-sonnet-20241022";
       system_prompt := PNone;
       max_tokens := PInt 1024;
       temperature := PFloat float_one;
       kwargs := ∅ |}
    (ready pong_stub) pong_stub) as (_ & params & _ & _ & _ & Hpong).
  - vm_compute. reflexivity.
  - reflexivity.
  - apply (Hpong {| content := [ {| text := "pong" |} ] |} []); reflexivity.
Defined.

(** C5.  Multi-turn chat hands the transport the caller's sequence of
    turns itself as the [messages] entry of the request, adds no turn of
    its own, and returns the text of the first content block of the
    reply, as single-turn chat does. *)
Theorem chat_with_history_passes_turns (c : Call) (fr : Frame) (w : World)
    (t : Transport) :
  bind_chat "messages" c = inr fr → client (self w) = Some t →
  first_argument "messages" c = Some (arg0 fr)
  ∧ ∃ params,
      chat_with_history c w = (reply t params, log w [EvCreate params])
      ∧ params !! "messages" = Some (arg0 fr)
      ∧ (∀ r b bs, messages_create t params = inr r → content r = b :: bs →
           (chat_with_history c w).1 = inr (text b)).
Proof.
  intros Hb Hc. split; [by apply bind_chat_first|].
  destruct (chat_with_history_run c fr w t Hb Hc)
    as (params & Hrun & _ & _ & _ & Hm & _).
  exists params. split_and!; [done| |].
  - rewrite Hm. rewrite (bind_chat_kwargs_param "messages" c fr); [done|done|].
    apply list_elem_of_here.
  - intros r b bs Hr Hcont. rewrite Hrun. cbn. by eapply reply_first_block.
Qed.

Lemma chat_with_history_passes_turns_witness :
  let turns :=
    PList [PDict [("role", PStr "user"); ("content", PStr "My name is Alice.")];
           PDict [("role", PStr "assistant"); ("content", PStr "Hello, Alice!")];
           PDict [("role", PStr "user"); ("content", PStr "What is my name?")]] in
  ∃ params,
    chat_with_history {| positional := [turns]; keywords := ∅ |} (ready pong_stub)
    = (inr "pong", log (ready pong_stub) [EvCreate params])
    ∧ params !! "messages" = Some turns.
Proof.
  intros turns.
  destruct (chat_with_history_passes_turns
    {| positional := [turns]; keywords := ∅ |}
    {| arg0 := turns;
       model := PStr "claude-3-5-sonnet-20241022";
       system_prompt := PNone;
       max_tokens := PInt 1024;
       temperature := PFloat float_one;
       kwargs := ∅ |}
    (ready pong_stub) pong_stub) as (_ & params & Hrun & Hm & _).
  - vm_compute. reflexivity.
  - reflexivity.
  - exists params. split; [exact Hrun | exact Hm].
Defined.

(** * The system instruction *)

(** C10.  In every chat operation a system instruction that is omitted,
    [None] or the empty string adds no [system] entry, so the request
    holds whatever the extras give for that key; a non-empty system
    instruction is written after the extras are merged and is what the
    request holds, whatever the extras say. *)
Theorem system_instruction (op : ChatOp) (c : Call) (fr : Frame) (w : World)
    (t : Transport) :
  bind_chat (first_param op) c = inr fr → client (self w) = Some t →
  ∃ params,
    requests (trace (perform op c w)) = requests (trace w) ++ [params]
    ∧ (positional c !! 2%nat = None → keywords c !! "system_prompt" = None →
         system_prompt fr = PNone)
    ∧ (system_prompt fr = PNone ∨ system_prompt fr = PStr "" →
         params !! "system" = keywords c !! "system")
    ∧ (∀ s, s ≠ "" → system_prompt fr = PStr s →
         params !! "system" = Some (PStr s)).
Proof.
  intros Hb Hc.
  destruct (perform_request op c fr w t Hb Hc)
    as (params & Hreq & _ & _ & _ & _ & Hs & _).
  exists params. split_and!; [done|..].
  - by apply (bind_chat_omitted_system (first_param op)).
  - intros Hsp. rewrite Hs.
    assert (truthy (system_prompt fr) = false) as ->
      by (by destruct Hsp as [-> | ->]).
    apply (bind_chat_kwargs_other (first_param op) c fr); [done|].
    rewrite !not_elem_of_cons. split_and!; try done; [|apply not_elem_of_nil].
    by destruct op.
  - intros s Hne Hsp. rewrite Hs, Hsp. by destruct s.
Qed.

Lemma system_instruction_witness :
  ∃ params,
    requests (trace (perform Streaming
      {| positional := [PStr "hi"];
         keywords := {[ "system_prompt" := PStr "Be brief.";
                        "system" := PStr "Be verbose." ]} |}
      (ready pong_stub))) = [params]
    ∧ params !! "system" = Some (PStr "Be brief.").
Proof.
  destruct (system_instruction Streaming
    {| positional := [PStr "hi"];
       keywords := {[ "system_prompt" := PStr "Be brief.";
                      "system" := PStr "Be verbose." ]} |}
    {| arg0 := PStr "hi";
       model := PStr "claude-3-5-sonnet-20241022";
       system_prompt := PStr "Be brief.";
       max_tokens := PInt 1024;
       temperature := PFloat float_one;
       kwargs := {[ "system" := PStr "Be verbose." ]} |}
    (ready pong_stub) pong_stub) as (params & Hreq & _ & _ & Hs).
  - vm_compute. reflexivity.
  - reflexivity.
  - exists params. split; [exact Hreq|]. by apply Hs.
Defined.

(** * Construction *)

Section ConstructionProperties.

Variable Anthropic : pyval → Transport.

Lemma construct_explicit (c : Call) (arg : pyval) (w : World) :
  bind_init c = inr arg → truthy arg = true →
  construct Anthropic c w
  = (inr tt,
     {| environ := environ w;
        self := {| api_key := Some arg; client := Some (Anthropic arg) |};
        trace := trace w ++ [EvAnthropic arg] |}).
Proof.
  intros Hb Ht.
  unfold construct, __init__, bind, lift. cbn. rewrite Hb, Ht. cbn.
  by rewrite Ht.
Qed.

Lemma construct_fallback_missing (c : Call) (arg : pyval) (w : World) :
  bind_init c = inr arg → truthy arg = false →
  environ w !! "ANTHROPIC_API_KEY" = None
  ∨ environ w !! "ANTHROPIC_API_KEY" = Some "" →
  ∃ k,
    construct Anthropic c w
    = (inl (ValueError
        "API key required. Set ANTHROPIC_API_KEY environment variable or pass api_key parameter."),
       {| environ := environ w;
          self := {| api_key := Some k; client := None |};
          trace := trace w ++ [EvGetenv "ANTHROPIC_API_KEY"] |}).
Proof.
  intros Hb Ht Henv.
  unfold construct, __init__, bind, lift. cbn. rewrite Hb, Ht. cbn.
  destruct Henv as [-> | ->]; cbn; eauto.
Qed.

Lemma construct_fallback_found (c : Call) (arg : pyval) (w : World)
    (a : Ascii.ascii) (s : string) :
  bind_init c = inr arg → truthy arg = false →
  environ w !! "ANTHROPIC_API_KEY" = Some (String a s) →
  construct Anthropic c w
  = (inr tt,
     {| environ := environ w;
        self := {| api_key := Some (PStr (String a s));
                   client := Some (Anthropic (PStr (String a s))) |};
        trace := trace w ++ [EvGetenv "ANTHROPIC_API_KEY";
                             EvAnthropic (PStr (String a s))] |}).
Proof.
  intros Hb Ht Henv.
  unfold construct, __init__, bind, lift. cbn. rewrite Hb, Ht. cbn.
  rewrite Henv. cbn. by rewrite <- app_assoc.
Qed.

End ConstructionProperties.

(** C3, as stated, fails.  The empty string is an explicit credential
    argument, and [ClaudeClient("")] reads the environment variable and
    stores its value. *)
Lemma explicit_credential_refuted : ¬ explicit_credential_claim.
Proof.
  intros H.
  destruct (H (fun _ => pong_stub)
              {| positional := [PStr ""]; keywords := ∅ |} ""
              {| environ := {[ "ANTHROPIC_API_KEY" := "sk-env" ]};
                 self := blank; trace := [] |}) as [Hkey _].
  - vm_compute. reflexivity.
  - vm_compute in Hkey. discriminate Hkey.
Qed.

(** C3, amended.  Constructing the facade with an explicit non-empty
    credential string never reads the environment variable: the argument
    is what is stored and what the vendor client is built with, and two
    constructions that differ only in the environment end alike. *)
Theorem explicit_credential (Anthropic : pyval → Transport) (c : Call)
    (s : string) (w : World) :
  s ≠ "" → bind_init c = inr (PStr s) →
  construct Anthropic c w
  = (inr tt,
     {| environ := environ w;
        self := {| api_key := Some (PStr s);
                   client := Some (Anthropic (PStr s)) |};
        trace := trace w ++ [EvAnthropic (PStr s)] |})
  ∧ (∀ env,
       let w2 := {| environ := env; self := self w; trace := trace w |} in
       (construct Anthropic c w2).1 = (construct Anthropic c w).1
       ∧ self (construct Anthropic c w2).2 = self (construct Anthropic c w).2
       ∧ trace (construct Anthropic c w2).2 = trace (construct Anthropic c w).2
       ∧ environ (construct Anthropic c w2).2 = env).
Proof.
  intros Hs Hb.
  assert (truthy (PStr s) = true) as Ht by (by destruct s).
  split; [by apply construct_explicit|].
  intros env w2. unfold w2.
  by rewrite !(construct_explicit Anthropic c (PStr s)).
Qed.

Lemma explicit_credential_witness :
  construct (fun _ => pong_stub)
    {| positional := []; keywords := {[ "api_key" := PStr "sk-arg" ]} |}
    {| environ := {[ "ANTHROPIC_API_KEY" := "sk-env" ]};
       self := blank; trace := [] |}
  = (inr tt,
     {| environ := {[ "ANTHROPIC_API_KEY" := "sk-env" ]};
        self := {| api_key := Some (PStr "sk-arg"); client := Some pong_stub |};
        trace := [EvAnthropic (PStr "sk-arg")] |}).
Proof.
  destruct (explicit_credential (fun _ => pong_stub)
    {| positional := []; keywords := {[ "api_key" := PStr "sk-arg" ]} |}
    "sk-arg"
    {| environ := {[ "ANTHROPIC_API_KEY" := "sk-env" ]};
       self := blank; trace := [] |}) as [H _].
  - discriminate.
  - vm_compute. reflexivity.
  - exact H.
Defined.

(** C4.  Constructing the facade with no credential argument while the
    environment variable is unset or empty raises the configuration
    error at once: the only thing done is the read of the variable; the
    environment is as before, no vendor client is built and no transport
    call is made. *)
Theorem missing_credential (Anthropic : pyval → Transport) (w : World) :
  environ w !! "ANTHROPIC_API_KEY" = None
  ∨ environ w !! "ANTHROPIC_API_KEY" = Some "" →
  ∃ k,
    construct Anthropic no_arguments w
    = (inl (ValueError
        "API key required. Set ANTHROPIC_API_KEY environment variable or pass api_key parameter."),
       {| environ := environ w;
          self := {| api_key := Some k; client := None |};
          trace := trace w ++ [EvGetenv "ANTHROPIC_API_KEY"] |}).
Proof.
  intros Henv.
  apply (construct_fallback_missing Anthropic no_arguments PNone w);
    [vm_compute; reflexivity | reflexivity | exact Henv].
Qed.

Lemma missing_credential_witness :
  ∃ k,
    construct (fun _ => pong_stub) no_arguments
      {| environ := {[ "HOME" := "/root" ]}; self := blank; trace := [] |}
    = (inl (ValueError
        "API key required. Set ANTHROPIC_API_KEY environment variable or pass api_key parameter."),
       {| environ := {[ "HOME" := "/root" ]};
          self := {| api_key := Some k; client := None |};
          trace := [EvGetenv "ANTHROPIC_API_KEY"] |}).
Proof.
  destruct (missing_credential (fun _ => pong_stub)
    {| environ := {[ "HOME" := "/root" ]}; self := blank; trace := [] |})
    as [k H].
  - left. vm_compute. reflexivity.
  - exists k. exact H.
Defined.

(** * Streaming chat *)

(** C6.  Against a transport whose streaming call yields a fixed finite
    sequence of fragments, iterating the result of streaming chat yields
    exactly those fragments in order and then ends; a second call
    against the same transport asks the transport again and yields the
    same sequence. *)
Theorem chat_stream_yields_fragments (t : Transport) (frags : list string)
    (c : Call) (fr : Frame) (w : World) (n : nat) :
  (∀ params, messages_stream t params
             = inr {| fragments := frags; failure := None |}) →
  client (self w) = Some t → bind_chat "message" c = inr fr →
  (length frags < n)%nat →
  ∃ params,
    let w1 := log w [EvStream params; EvEnter; EvExit] in
    let w2 := log w1 [EvStream params; EvEnter; EvExit] in
    chat_stream c w = (inr (GenCreated fr), w)
    ∧ for_each n (GenCreated fr) w = ((frags, Exhausted), w1)
    ∧ chat_stream c w1 = (inr (GenCreated fr), w1)
    ∧ for_each n (GenCreated fr) w1 = ((frags, Exhausted), w2).
Proof.
  intros Ht Hc Hb Hn.
  destruct (for_each_created c fr Hb) as (params & _ & _ & Hrun).
  exists params. intros w1 w2.
  split_and!; [by apply chat_stream_run | | by apply chat_stream_run |].
  - by rewrite (Hrun w t _ n Hc (Ht params)).
  - by rewrite (Hrun w1 t _ n Hc (Ht params)).
Qed.

Lemma chat_stream_yields_fragments_witness :
  ∃ params,
    let w1 := log (ready pong_stub) [EvStream params; EvEnter; EvExit] in
    for_each 4 (GenCreated
      {| arg0 := PStr "Tell me a short joke.";
         model := PStr "claude-3-5-sonnet-20241022";
         system_prompt := PNone;
         max_tokens := PInt 1024;
         temperature := PFloat float_one;
         kwargs := ∅ |}) (ready pong_stub)
    = ((["a"; "b"; "c"], Exhausted), w1).
Proof.
  destruct (chat_stream_yields_fragments pong_stub ["a"; "b"; "c"]
    {| positional := [PStr "Tell me a short joke."]; keywords := ∅ |}
    {| arg0 := PStr "Tell me a short joke.";
       model := PStr "claude-3-5-sonnet-20241022";
       system_prompt := PNone;
       max_tokens := PInt 1024;
       temperature := PFloat float_one;
       kwargs := ∅ |}
    (ready pong_stub) 4) as (params & _ & H & _).
  - reflexivity.
  - reflexivity.
  - vm_compute. reflexivity.
  - cbn. lia.
  - exists params. exact H.
Defined.

(** C7, as stated, fails.  A caller who takes one fragment and stops
    iterating leaves the generator suspended inside the [with] block:
    the stream has been entered and not exited. *)
Lemma released_on_every_exit_refuted : ¬ released_on_every_exit_claim.
Proof.
  intros H.
  specialize (H {| arg0 := PStr "Write a haiku about coding.";
                   model := PStr "claude-3-5-sonnet-20241022";
                   system_prompt := PNone;
                   max_tokens := PInt 1024;
                   temperature := PFloat float_one;
                   kwargs := ∅ |}
                (ready pong_stub) pong_stub 1%nat eq_refl).
  vm_compute in H. discriminate H.
Qed.

Lemma leaving_generator_other (e : exn) :
  e ≠ StopIterationExn → leaving_generator e = e.
Proof. by destruct e. Qed.

Lemma ending_of_other (e : exn) :
  e ≠ StopIterationExn → ending_of (Some e) = Failed e.
Proof. by destruct e. Qed.

(** C7, amended.  When the transport raises an error (other than
    [StopIteration], which is how a stream ends) in the middle of a
    stream, the loop over streaming chat receives the fragments that
    came before and then that very error, and the stream has been
    exited.  When the loop ends because the stream ended or raised, as
    many streams have been exited as were entered.  When the caller
    stops iterating early, the stream stays entered for as long as the
    generator is suspended, and is exited when the generator is closed
    ([gen.close()], or Python finalizing a generator no longer used). *)
Theorem chat_stream_releases (c : Call) (fr : Frame) (w : World)
    (t : Transport) :
  bind_chat "message" c = inr fr → client (self w) = Some t →
  (∃ params, ∀ s e n,
     messages_stream t params = inr s → failure s = Some e →
     e ≠ StopIterationExn →
     (length (fragments s) < n)%nat →
     for_each n (GenCreated fr) w
     = ((fragments s, Failed e), log w [EvStream params; EvEnter; EvExit]))
  ∧ (∀ n,
       match for_each n (GenCreated fr) w with
       | ((_, Pending g), w1) =>
           open_streams (trace w1) = (open_streams (trace w) + live g)%Z
           ∧ (gen_close g w1).1 = GenClosed
           ∧ open_streams (trace (gen_close g w1).2) = open_streams (trace w)
       | ((_, _), w1) => open_streams (trace w1) = open_streams (trace w)
       end).
Proof.
  intros Hb Hc. split.
  - destruct (for_each_created c fr Hb) as (params & _ & _ & Hrun).
    exists params. intros s e n Hs He Hne Hn.
    rewrite (Hrun w t s n Hc Hs Hn). by rewrite He, ending_of_other.
  - intros n. pose proof (for_each_balance n (GenCreated fr) w) as H.
    destruct (for_each n (GenCreated fr) w) as [[ts [|e|g]] w1]; cbn in H;
      [lia | lia |].
    destruct (gen_close_balance g w1) as [Hbal Hg]. split_and!; [lia|done|lia].
Qed.

Lemma chat_stream_releases_witness :
  let fr := {| arg0 := PStr "Write a haiku about coding.";
               model := PStr "claude-3-5-sonnet-20241022";
               system_prompt := PNone;
               max_tokens := PInt 1024;
               temperature := PFloat float_one;
               kwargs := ∅ |} in
  (∃ params,
     for_each 2 (GenCreated fr) (ready (failing_stub rate_limited))
     = ((["a"], Failed rate_limited),
        log (ready (failing_stub rate_limited))
          [EvStream params; EvEnter; EvExit]))
  ∧ match for_each 1 (GenCreated fr) (ready pong_stub) with
    | ((_, Pending g), w1) =>
        open_streams (trace w1) = (0 + live g)%Z
        ∧ (gen_close g w1).1 = GenClosed
        ∧ open_streams (trace (gen_close g w1).2) = 0%Z
    | ((_, _), w1) => open_streams (trace w1) = 0%Z
    end.
Proof.
  intros fr. split.
  - destruct (chat_stream_releases
      {| positional := [PStr "Write a haiku about coding."]; keywords := ∅ |}
      fr (ready (failing_stub rate_limited)) (failing_stub rate_limited))
      as [(params & H) _].
    + vm_compute. reflexivity.
    + reflexivity.
    + exists params.
      apply (H {| fragments := ["a"]; failure := Some rate_limited |}
               rate_limited 2%nat);
        [reflexivity | reflexivity | discriminate | cbn; lia].
  - destruct (chat_stream_releases
      {| positional := [PStr "Write a haiku about coding."]; keywords := ∅ |}
      fr (ready pong_stub) pong_stub) as [_ H].
    + vm_compute. reflexivity.
    + reflexivity.
    + exact (H 1%nat).
Defined.

(** An early exit really holds a stream until the generator is closed:
    after one fragment the stream is entered and not exited, and
    closing the generator exits it. *)
Example abandoned_stream_is_released :
  let fr := {| arg0 := PStr "Write a haiku about coding.";
               model := PStr "claude-3-5-sonnet-20241022";
               system_prompt := PNone;
               max_tokens := PInt 1024;
               temperature := PFloat float_one;
               kwargs := ∅ |} in
  match for_each 1 (GenCreated fr) (ready pong_stub) with
  | ((ts, Pending g), w1) =>
      ts = ["a"] ∧ g = GenSuspended ["b"; "c"] None
      ∧ open_streams (trace w1) = 1%Z
      ∧ open_streams (trace (gen_close g w1).2) = 0%Z
  | _ => False
  end.
Proof. vm_compute. by split_and!. Qed.

(** * The list of models *)

(** C8.  [get_available_models] returns the same fixed, non-empty,
    ordered list of model identifiers in every world, whatever the
    transport and the environment are, and leaves the world as it was:
    nothing is read, nothing is called. *)
Theorem get_available_models_fixed (w w' : World) :
  get_available_models no_arguments w
  = (inr [ "claude-3-5-sonnet-20241022";
           "claude-3-5-haiku-20241022";
           "claude-3-opus-20240229";
           "claude-3-sonnet-20240229";
           "claude-3-haiku-20240307" ], w)
  ∧ (get_available_models no_arguments w').1
    = (get_available_models no_arguments w).1
  ∧ (∃ m ms, (get_available_models no_arguments w).1 = inr (m :: ms))
  ∧ requests (trace (get_available_models no_arguments w).2)
    = requests (trace w).
Proof. split_and!; [reflexivity | reflexivity | by eexists _, _ | reflexivity]. Qed.

(** * Transport errors *)

(** C9, as stated, fails.  A [StopIteration] raised by the transport
    when the stream is opened leaves the body of the generator, and the
    caller of the streaming chat receives a [RuntimeError] instead. *)
Lemma stream_errors_unchanged_refuted : ¬ stream_errors_unchanged_claim.
Proof.
  intros H.
  specialize (H {| arg0 := PStr "Tell me a short joke.";
                   model := PStr "claude-3-5-sonnet-20241022";
                   system_prompt := PNone;
                   max_tokens := PInt 1024;
                   temperature := PFloat float_one;
                   kwargs := ∅ |}
                (ready (refusing_stub StopIterationExn))
                (refusing_stub StopIterationExn) StopIterationExn eq_refl
                (fun _ => eq_refl)).
  vm_compute in H. discriminate H.
Qed.

(** C9, amended.  In single-turn and multi-turn chat an error raised by
    the transport is what the caller receives, after a single call to
    the transport.  In streaming chat the same holds for every error but
    [StopIteration]: raised when the stream is opened it reaches the
    caller as [RuntimeError], and raised while the stream is iterated it
    ends the stream.  No chat operation, failing or not, changes the
    stored credential, the transport handle or the environment. *)
Theorem transport_errors_propagate (c : Call) (fr : Frame) (w : World)
    (t : Transport) :
  client (self w) = Some t →
  (bind_chat "message" c = inr fr →
     ∃ params, ∀ e, messages_create t params = inl e →
       chat c w = (inl e, log w [EvCreate params]))
  ∧ (bind_chat "messages" c = inr fr →
       ∃ params, ∀ e, messages_create t params = inl e →
         chat_with_history c w = (inl e, log w [EvCreate params]))
  ∧ (bind_chat "message" c = inr fr →
       ∃ params,
         (∀ e n, messages_stream t params = inl e → e ≠ StopIterationExn →
            for_each (S n) (GenCreated fr) w
            = (([], Failed e), log w [EvStream params]))
         ∧ (∀ n, messages_stream t params = inl StopIterationExn →
              for_each (S n) (GenCreated fr) w
              = (([], Failed (RuntimeError "generator raised StopIteration")),
                 log w [EvStream params]))
         ∧ (∀ s e n, messages_stream t params = inr s → failure s = Some e →
              e ≠ StopIterationExn →
              (length (fragments s) < n)%nat →
              for_each n (GenCreated fr) w
              = ((fragments s, Failed e),
                 log w [EvStream params; EvEnter; EvExit]))
         ∧ (∀ s n, messages_stream t params = inr s →
              failure s = Some StopIterationExn →
              (length (fragments s) < n)%nat →
              for_each n (GenCreated fr) w
              = ((fragments s, Exhausted),
                 log w [EvStream params; EvEnter; EvExit])))
  ∧ self (chat c w).2 = self w
  ∧ self (chat_with_history c w).2 = self w
  ∧ self (chat_stream c w).2 = self w
  ∧ (∀ n g, self (for_each n g w).2 = self w)
  ∧ (∀ g, self (gen_close g w).2 = self w).
Proof.
  intros Hc. split_and!.
  - intros Hb. destruct (chat_run c fr w t Hb Hc) as (params & Hrun & _).
    exists params. intros e He. rewrite Hrun. unfold reply. by rewrite He.
  - intros Hb.
    destruct (chat_with_history_run c fr w t Hb Hc) as (params & Hrun & _).
    exists params. intros e He. rewrite Hrun. unfold reply. by rewrite He.
  - intros Hb.
    destruct (for_each_created c fr Hb) as (params & _ & Herr & Hrun).
    exists params. split_and!.
    + intros e n He Hne. rewrite (Herr w t e n Hc He).
      by rewrite leaving_generator_other.
    + intros n He. by rewrite (Herr w t _ n Hc He).
    + intros s e n Hs He Hne Hn. rewrite (Hrun w t s n Hc Hs Hn).
      by rewrite He, ending_of_other.
    + intros s n Hs He Hn. rewrite (Hrun w t s n Hc Hs Hn). by rewrite He.
  - apply preserves_chat.
  - apply preserves_chat_with_history.
  - apply preserves_chat_stream.
  - intros n g. apply for_each_facade.
  - intros g. apply gen_close_facade.
Qed.

Lemma transport_errors_propagate_witness :
  ∃ params,
    chat {| positional := [PStr "hi"]; keywords := ∅ |}
      (ready (failing_stub rate_limited))
    = (inl rate_limited,
       log (ready (failing_stub rate_limited)) [EvCreate params]).
Proof.
  destruct (transport_errors_propagate
    {| positional := [PStr "hi"]; keywords := ∅ |}
    {| arg0 := PStr "hi";
       model := PStr "claude-3-5-sonnet-20241022";
       system_prompt := PNone;
       max_tokens := PInt 1024;
       temperature := PFloat float_one;
       kwargs := ∅ |}
    (ready (failing_stub rate_limited)) (failing_stub rate_limited))
    as (H & _).
  - reflexivity.
  - destruct H as (params & H); [vm_compute; reflexivity|].
    exists params. apply H. reflexivity.
Defined.

(** * More on construction *)

Lemma construct_rejected (Anthropic : pyval → Transport) (c : Call) (e : exn)
    (w : World) :
  bind_init c = inl e →
  construct Anthropic c w
  = (inl e, {| environ := environ w; self := blank; trace := trace w |}).
Proof.
  intros Hb. unfold construct, __init__, bind, lift. cbn. by rewrite Hb.
Qed.

(** X1.  Whenever construction succeeds, the instance holds a credential
    that is truthy and the vendor client built from that same
    credential; the client was built once, after at most one read of the
    environment variable, and the environment is as before. *)
Theorem construct_establishes_credential (Anthropic : pyval → Transport)
    (c : Call) (w : World) :
  (construct Anthropic c w).1 = inr tt →
  ∃ k reads,
    truthy k = true
    ∧ self (construct Anthropic c w).2
      = {| api_key := Some k; client := Some (Anthropic k) |}
    ∧ environ (construct Anthropic c w).2 = environ w
    ∧ trace (construct Anthropic c w).2 = trace w ++ reads ++ [EvAnthropic k]
    ∧ (reads = [] ∨ reads = [EvGetenv "ANTHROPIC_API_KEY"]).
Proof.
  intros Hok.
  destruct (bind_init c) as [e|arg] eqn:Hb.
  { by rewrite (construct_rejected Anthropic c e w Hb) in Hok. }
  destruct (truthy arg) eqn:Ht.
  - exists arg, []. rewrite (construct_explicit Anthropic c arg w Hb Ht). cbn.
    split_and!; [done..|by left].
  - destruct (environ w !! "ANTHROPIC_API_KEY") as [[|a s]|] eqn:Henv.
    + destruct (construct_fallback_missing Anthropic c arg w Hb Ht) as [k Hk];
        [by right|]. by rewrite Hk in Hok.
    + exists (PStr (String a s)), [EvGetenv "ANTHROPIC_API_KEY"].
      rewrite (construct_fallback_found Anthropic c arg w a s Hb Ht Henv). cbn.
      split_and!; [done..|by right].
    + destruct (construct_fallback_missing Anthropic c arg w Hb Ht) as [k Hk];
        [by left|]. by rewrite Hk in Hok.
Qed.

Lemma construct_establishes_credential_witness :
  ∃ k, truthy k = true
    ∧ self (construct (fun _ => pong_stub)
              {| positional := [PStr "sk-arg"]; keywords := ∅ |}
              (ready pong_stub)).2
      = {| api_key := Some k; client := Some pong_stub |}.
Proof.
  destruct (construct_establishes_credential (fun _ => pong_stub)
              {| positional := [PStr "sk-arg"]; keywords := ∅ |}
              (ready pong_stub)) as (k & reads & Ht & Hs & _).
  - vm_compute. reflexivity.
  - exists k. split; [exact Ht | exact Hs].
Defined.

(** X2.  With no credential argument, or one that is [None] or empty,
    and the environment variable set to a non-empty value, construction
    succeeds with the value of the variable as the credential. *)
Theorem construct_falls_back_to_environment (Anthropic : pyval → Transport)
    (c : Call) (arg : pyval) (w : World) (a : Ascii.ascii) (s : string) :
  bind_init c = inr arg → truthy arg = false →
  environ w !! "ANTHROPIC_API_KEY" = Some (String a s) →
  construct Anthropic c w
  = (inr tt,
     {| environ := environ w;
        self := {| api_key := Some (PStr (String a s));
                   client := Some (Anthropic (PStr (String a s))) |};
        trace := trace w ++ [EvGetenv "ANTHROPIC_API_KEY";
                             EvAnthropic (PStr (String a s))] |}).
Proof. apply construct_fallback_found. Qed.

Lemma construct_falls_back_to_environment_witness :
  construct (fun _ => pong_stub) no_arguments
    {| environ := {[ "ANTHROPIC_API_KEY" := "sk-env" ]};
       self := blank; trace := [] |}
  = (inr tt,
     {| environ := {[ "ANTHROPIC_API_KEY" := "sk-env" ]};
        self := {| api_key := Some (PStr "sk-env"); client := Some pong_stub |};
        trace := [EvGetenv "ANTHROPIC_API_KEY"; EvAnthropic (PStr "sk-env")] |}).
Proof.
  refine (construct_falls_back_to_environment (fun _ => pong_stub) no_arguments
            PNone
            {| environ := {[ "ANTHROPIC_API_KEY" := "sk-env" ]};
               self := blank; trace := [] |}
            (Ascii.ascii_of_nat 115) "k-env" _ _ _).
  - vm_compute. reflexivity.
  - reflexivity.
  - vm_compute. reflexivity.
Defined.

(** X3.  A credential argument that is [None], the empty string or any
    other falsy value is treated as no argument at all: construction
    does exactly what it does when called without arguments. *)
Theorem falsy_argument_is_no_argument (Anthropic : pyval → Transport)
    (c : Call) (arg : pyval) (w : World) :
  bind_init c = inr arg → truthy arg = false →
  construct Anthropic c w = construct Anthropic no_arguments w.
Proof.
  intros Hb Ht.
  assert (bind_init no_arguments = inr PNone) as Hn by (vm_compute; reflexivity).
  destruct (environ w !! "ANTHROPIC_API_KEY") as [[|a s]|] eqn:Henv.
  - unfold construct, __init__, bind, lift. cbn. rewrite Hb, Hn, Ht. cbn.
    by rewrite Henv.
  - rewrite (construct_fallback_found Anthropic c arg w a s Hb Ht Henv).
    by rewrite (construct_fallback_found Anthropic no_arguments PNone w a s Hn eq_refl Henv).
  - unfold construct, __init__, bind, lift. cbn. rewrite Hb, Hn, Ht. cbn.
    by rewrite Henv.
Qed.

Lemma falsy_argument_is_no_argument_witness :
  construct (fun _ => pong_stub)
    {| positional := [PStr ""]; keywords := ∅ |} (ready pong_stub)
  = construct (fun _ => pong_stub) no_arguments (ready pong_stub).
Proof.
  apply (falsy_argument_is_no_argument (fun _ => pong_stub)
           {| positional := [PStr ""]; keywords := ∅ |} (PStr "")
           (ready pong_stub)).
  - vm_compute. reflexivity.
  - reflexivity.
Defined.

(** * Calls that are not accepted *)

Lemma bind_chat_error (first : string) (c : Call) (e : exn) :
  bind_chat first c = inl e → ∃ why, e = TypeError why.
Proof.
  unfold bind_chat, bind_args. intros H.
  repeat (case_bool_decide || case_match); simplify_eq; eauto.
Qed.

Lemma rejected_outcomes (c : Call) (e : exn) (w : World) :
  (bind_chat "message" c = inl e →
     chat c w = (inl e, w) ∧ chat_stream c w = (inl e, w))
  ∧ (bind_chat "messages" c = inl e → chat_with_history c w = (inl e, w)).
Proof.
  split.
  - intros Hb. split; [|by apply chat_stream_rejected].
    unfold chat, bind, lift. by rewrite Hb.
  - intros Hb. unfold chat_with_history, bind, lift. by rewrite Hb.
Qed.

(** X4.  A chat call that gives no first argument, more than five
    positional arguments, or a keyword named [self] raises [TypeError]
    when it is made, in all three operations, and nothing is sent. *)
Theorem malformed_call_is_rejected (op : ChatOp) (c : Call) (w : World) :
  first_argument (first_param op) c = None
  ∨ (5 < length (positional c))%nat
  ∨ is_Some (keywords c !! "self") →
  ∃ why,
    bind_chat (first_param op) c = inl (TypeError why)
    ∧ perform op c w = w
    ∧ match op with
      | SingleTurn => chat c w = (inl (TypeError why), w)
      | MultiTurn => chat_with_history c w = (inl (TypeError why), w)
      | Streaming => chat_stream c w = (inl (TypeError why), w)
      end.
Proof.
  intros Hbad.
  destruct (bind_chat (first_param op) c) as [e|fr] eqn:Hb.
  - destruct (bind_chat_error _ c e Hb) as [why ->]. exists why.
    split_and!; [done | by apply (perform_rejected op c _ w Hb) |].
    destruct (rejected_outcomes c (TypeError why) w) as [H1 H2].
    destruct op; cbn [first_param] in Hb; [by apply H1 | by apply H1 | by apply H2].
  - exfalso. pose proof (bind_chat_first _ c fr Hb) as Hfirst.
    destruct (bind_chat_inv _ c fr Hb) as (Hself & _ & Hlen & _).
    destruct Hbad as [Hnone | [Hmany | [v Hv]]]; [congruence | lia | congruence].
Qed.

Lemma malformed_call_is_rejected_witness :
  ∃ why, chat no_arguments (ready pong_stub)
         = (inl (TypeError why), ready pong_stub).
Proof.
  destruct (malformed_call_is_rejected SingleTurn no_arguments (ready pong_stub))
    as (why & _ & _ & H).
  - left. reflexivity.
  - exists why. exact H.
Defined.

(** * Defaults *)

(** X5.  In every chat operation a parameter the caller leaves out takes
    its default in the request: the model [claude-3-5-sonnet-20241022],
    which is the first of the models [get_available_models] lists,
    [max_tokens] 1024 and [temperature] 1.0. *)
Theorem omitted_parameters_take_defaults (op : ChatOp) (c : Call) (fr : Frame)
    (w : World) (t : Transport) :
  bind_chat (first_param op) c = inr fr → client (self w) = Some t →
  ∃ params,
    requests (trace (perform op c w)) = requests (trace w) ++ [params]
    ∧ (positional c !! 1%nat = None → keywords c !! "model" = None →
         params !! "model" = Some (PStr "claude-3-5-sonnet-20241022")
         ∧ ∀ w', ∃ ms, (get_available_models no_arguments w').1 = inr ms
                       ∧ PStr <$> head ms = params !! "model")
    ∧ (positional c !! 3%nat = None → keywords c !! "max_tokens" = None →
         params !! "max_tokens" = Some (PInt 1024))
    ∧ (positional c !! 4%nat = None → keywords c !! "temperature" = None →
         params !! "temperature" = Some (PFloat float_one)).
Proof.
  intros Hb Hc.
  destruct (perform_request op c fr w t Hb Hc)
    as (params & Hreq & Hm & Ht & Hte & _).
  destruct (bind_chat_inv _ c fr Hb) as (_ & _ & _ & Hf & _).
  exists params. split_and!; [done|..].
  - intros Hp Hk.
    pose proof (fill_default _ _ _ _ 1 _ Hf eq_refl Hp Hk) as H. cbn in H.
    injection H as H. rewrite Hm, H. split; [done|].
    intros w'. by eexists.
  - intros Hp Hk.
    pose proof (fill_default _ _ _ _ 3 _ Hf eq_refl Hp Hk) as H. cbn in H.
    injection H as H. by rewrite Ht, H.
  - intros Hp Hk.
    pose proof (fill_default _ _ _ _ 4 _ Hf eq_refl Hp Hk) as H. cbn in H.
    injection H as H. by rewrite Hte, H.
Qed.

Lemma omitted_parameters_take_defaults_witness :
  ∃ params,
    requests (trace (perform MultiTurn
      {| positional := [PList []]; keywords := ∅ |} (ready pong_stub)))
    = [params]
    ∧ params !! "model" = Some (PStr "claude-3-5-sonnet-20241022")
    ∧ params !! "max_tokens" = Some (PInt 1024)
    ∧ params !! "temperature" = Some (PFloat float_one).
Proof.
  destruct (omitted_parameters_take_defaults MultiTurn
    {| positional := [PList []]; keywords := ∅ |}
    {| arg0 := PList [];
       model := PStr "claude-3-5-sonnet-20241022";
       system_prompt := PNone;
       max_tokens := PInt 1024;
       temperature := PFloat float_one;
       kwargs := ∅ |}
    (ready pong_stub) pong_stub) as (params & Hreq & Hm & Ht & Hte).
  - vm_compute. reflexivity.
  - reflexivity.
  - exists params. split; [exact Hreq|]. split; [|split].
    + apply Hm; reflexivity.
    + apply Ht; reflexivity.
    + apply Hte; reflexivity.
Defined.

(** * The shape of a request *)

Set Warnings "-clear-no-such-hyp".

Lemma request_keys (d kw : gmap string pyval) (sp : pyval) (keys : gset string) :
  dom d = keys → d !! "stream" = None ∨ d !! "stream" = Some (PBool true) →
  let params := if truthy sp then <["system" := sp]> (spread d kw)
                else spread d kw in
  dom params = keys ∪ dom kw ∪ (if truthy sp then {[ "system" ]} else ∅)
  ∧ params !! "stream"
    = match kw !! "stream" with Some v => Some v | None => d !! "stream" end.
Proof.
  intros Hd Hs params. unfold params, spread.
  destruct (truthy sp).
  - rewrite dom_insert_L, dom_union_L, Hd, lookup_insert_ne by done.
    rewrite lookup_union. split; [clear; set_solver|].
    by destruct (kw !! "stream"), (d !! "stream").
  - rewrite dom_union_L, Hd, lookup_union. split; [clear; set_solver|].
    by destruct (kw !! "stream"), (d !! "stream").
Qed.

(** X6.  The request map of a chat operation holds the four base keys
    ([model], [messages], [max_tokens], [temperature]; and [stream] for
    streaming chat), every key of the extras, [system] when the system
    instruction is truthy, and nothing else.  The extras are the
    caller's keywords that name no parameter.  Streaming chat sets
    [stream] to [True] unless the extras give it; the other operations
    have a [stream] entry only when the extras give one. *)
Theorem request_has_exactly_these_keys (op : ChatOp) (c : Call) (fr : Frame)
    (w : World) (t : Transport) :
  bind_chat (first_param op) c = inr fr → client (self w) = Some t →
  ∃ params,
    requests (trace (perform op c w)) = requests (trace w) ++ [params]
    ∧ dom params
      = base_keys op ∪ dom (kwargs fr)
        ∪ (if truthy (system_prompt fr) then {[ "system" ]} else ∅)
    ∧ (∀ k, k ∉ [first_param op; "model"; "system_prompt"; "max_tokens";
                 "temperature"] →
            kwargs fr !! k = keywords c !! k)
    ∧ params !! "stream"
      = match op with
        | Streaming => Some (default (PBool true) (keywords c !! "stream"))
        | _ => keywords c !! "stream"
        end.
Proof.
  intros Hb Hc.
  assert (kwargs fr !! "stream" = keywords c !! "stream") as Hstream.
  { apply (bind_chat_kwargs_other (first_param op) c fr "stream" Hb).
    rewrite !not_elem_of_cons. split_and!; try done; [|apply not_elem_of_nil].
    by destruct op. }
  destruct op; cbn [perform first_param base_keys] in *.
  - unfold chat. unfold bind at 1. unfold lift. rewrite Hb. cbv zeta.
    rewrite (create_run _ w t Hc). cbn [snd].
    match goal with |- context [EvCreate ?p] => exists p end.
    split; [apply requests_app|].
    match goal with |- context [spread ?d _] =>
      destruct (request_keys d (kwargs fr) (system_prompt fr)
                  {[ "model"; "messages"; "max_tokens"; "temperature" ]})
        as [Hdom Hs] end.
    { cbn. rewrite !dom_insert_L, dom_empty_L. clear. set_solver. }
    { left. by simplify_map_eq. }
    cbv zeta in Hdom, Hs. split_and!; [exact Hdom | | ].
    + intros k Hk. by apply (bind_chat_kwargs_other "message" c fr k Hb).
    + rewrite Hs, Hstream. destruct (keywords c !! "stream"); [done|].
      by simplify_map_eq.
  - rewrite (chat_stream_run c fr w Hb). cbn [gen_next snd].
    unfold chat_stream_body. cbv zeta. rewrite (open_run _ w t Hc).
    match goal with |- context [EvStream ?p] => exists p end.
    split.
    { destruct (messages_stream t _) as [e|s]; [apply requests_app|].
      rewrite gen_next_suspended_requests. apply requests_app. }
    match goal with |- context [spread ?d _] =>
      destruct (request_keys d (kwargs fr) (system_prompt fr)
                  {[ "model"; "messages"; "max_tokens"; "temperature"; "stream" ]})
        as [Hdom Hs] end.
    { cbn. rewrite !dom_insert_L, dom_empty_L. clear. set_solver. }
    { right. by simplify_map_eq. }
    cbv zeta in Hdom, Hs. split_and!; [exact Hdom | | ].
    + intros k Hk. by apply (bind_chat_kwargs_other "message" c fr k Hb).
    + rewrite Hs, Hstream. destruct (keywords c !! "stream"); [done|].
      by simplify_map_eq.
  - unfold chat_with_history. unfold bind at 1. unfold lift. rewrite Hb. cbv zeta.
    rewrite (create_run _ w t Hc). cbn [snd].
    match goal with |- context [EvCreate ?p] => exists p end.
    split; [apply requests_app|].
    match goal with |- context [spread ?d _] =>
      destruct (request_keys d (kwargs fr) (system_prompt fr)
                  {[ "model"; "messages"; "max_tokens"; "temperature" ]})
        as [Hdom Hs] end.
    { cbn. rewrite !dom_insert_L, dom_empty_L. clear. set_solver. }
    { left. by simplify_map_eq. }
    cbv zeta in Hdom, Hs. split_and!; [exact Hdom | | ].
    + intros k Hk. by apply (bind_chat_kwargs_other "messages" c fr k Hb).
    + rewrite Hs, Hstream. destruct (keywords c !! "stream"); [done|].
      by simplify_map_eq.
Qed.

Lemma request_has_exactly_these_keys_witness :
  ∃ params,
    requests (trace (perform Streaming
      {| positional := [PStr "hi"]; keywords := {[ "timeout" := PInt 30 ]} |}
      (ready pong_stub))) = [params]
    ∧ params !! "stream" = Some (PBool true).
Proof.
  destruct (request_has_exactly_these_keys Streaming
    {| positional := [PStr "hi"]; keywords := {[ "timeout" := PInt 30 ]} |}
    {| arg0 := PStr "hi";
       model := PStr "claude-3-5-sonnet-20241022";
       system_prompt := PNone;
       max_tokens := PInt 1024;
       temperature := PFloat float_one;
       kwargs := {[ "timeout" := PInt 30 ]} |}
    (ready pong_stub) pong_stub) as (params & Hreq & _ & _ & Hs).
  - vm_compute. reflexivity.
  - reflexivity.
  - exists params. split; [exact Hreq | exact Hs].
Defined.

(** * More on streaming *)

(** X7.  Calling streaming chat does nothing but bind the arguments: the
    world is unchanged, whether the call is accepted or raises
    [TypeError].  Closing the generator before it is iterated sends
    nothing either; the request goes out at the first resumption. *)
Theorem chat_stream_is_lazy (c : Call) (w : World) :
  (chat_stream c w).2 = w
  ∧ match (chat_stream c w).1 with
    | inl e => bind_chat "message" c = inl e
    | inr g =>
        gen_close g w = (GenClosed, w)
        ∧ ∀ t, client (self w) = Some t →
            ∃ params,
              requests (trace (gen_next g w).2) = requests (trace w) ++ [params]
      end.
Proof.
  destruct (bind_chat "message" c) as [e|fr] eqn:Hb.
  - by rewrite (chat_stream_rejected c e w Hb).
  - rewrite (chat_stream_run c fr w Hb). cbn. split_and!; [done..|].
    intros t Hc.
    destruct (perform_request Streaming c fr w t Hb Hc) as (params & Hreq & _).
    exists params. cbn [perform] in Hreq.
    by rewrite (chat_stream_run c fr w Hb) in Hreq.
Qed.


(** * Replies *)

(** X9.  When the transport answers with no content block, single-turn
    and multi-turn chat raise [IndexError]; the request has been sent. *)
Theorem empty_reply_raises_IndexError (c : Call) (fr : Frame) (w : World)
    (t : Transport) :
  client (self w) = Some t →
  (bind_chat "message" c = inr fr →
     ∃ params, ∀ r, messages_create t params = inr r → content r = [] →
       chat c w = (inl IndexError, log w [EvCreate params]))
  ∧ (bind_chat "messages" c = inr fr →
       ∃ params, ∀ r, messages_create t params = inr r → content r = [] →
         chat_with_history c w = (inl IndexError, log w [EvCreate params])).
Proof.
  intros Hc. split; intros Hb.
  - destruct (chat_run c fr w t Hb Hc) as (params & Hrun & _).
    exists params. intros r Hr Hcont. rewrite Hrun. unfold reply.
    by rewrite Hr, Hcont.
  - destruct (chat_with_history_run c fr w t Hb Hc) as (params & Hrun & _).
    exists params. intros r Hr Hcont. rewrite Hrun. unfold reply.
    by rewrite Hr, Hcont.
Qed.

Lemma empty_reply_raises_IndexError_witness :
  let silent := {| messages_create := fun _ => inr {| content := [] |};
                   messages_stream := fun _ => inl rate_limited |} in
  ∃ params,
    chat {| positional := [PStr "hi"]; keywords := ∅ |} (ready silent)
    = (inl IndexError, log (ready silent) [EvCreate params]).
Proof.
  intros silent.
  destruct (empty_reply_raises_IndexError
    {| positional := [PStr "hi"]; keywords := ∅ |}
    {| arg0 := PStr "hi";
       model := PStr "claude-3-5-sonnet-20241022";
       system_prompt := PNone;
       max_tokens := PInt 1024;
       temperature := PFloat float_one;
       kwargs := ∅ |}
    (ready silent) silent) as (H & _).
  - reflexivity.
  - destruct H as (params & H); [vm_compute; reflexivity|].
    exists params. apply (H {| content := [] |}); reflexivity.
Defined.

(** * Calls do not influence one another *)

Lemma create_depends_on_client (params : gmap string pyval) (w w' : World) :
  client (self w) = client (self w') →
  ∃ evs,
    (let* response := create params in first_text response) w
    = (((let* response := create params in first_text response) w').1,
       log w evs)
    ∧ (let* response := create params in first_text response) w'
      = (((let* response := create params in first_text response) w').1,
         log w' evs).
Proof.
  intros Hc. destruct (client (self w')) as [t|] eqn:Hc'.
  - exists [EvCreate params]. by rewrite !(create_run params _ t).
  - exists []. unfold create, bind, get_client, log. rewrite Hc, Hc'. cbn.
    rewrite !app_nil_r. by destruct w, w'.
Qed.

Lemma chat_depends_only_on_client (c : Call) (w w' : World) :
  client (self w) = client (self w') →
  (∃ evs, chat c w = ((chat c w').1, log w evs)
          ∧ chat c w' = ((chat c w').1, log w' evs))
  ∧ (∃ evs, chat_with_history c w = ((chat_with_history c w').1, log w evs)
            ∧ chat_with_history c w'
              = ((chat_with_history c w').1, log w' evs)).
Proof.
  intros Hc. split.
  - unfold chat. unfold bind at 1 3 4 6. unfold lift.
    destruct (bind_chat "message" c) as [e|fr].
    + exists []. unfold log. rewrite !app_nil_r. by destruct w, w'.
    + cbv zeta. by apply create_depends_on_client.
  - unfold chat_with_history. unfold bind at 1 3 4 6. unfold lift.
    destruct (bind_chat "messages" c) as [e|fr].
    + exists []. unfold log. rewrite !app_nil_r. by destruct w, w'.
    + cbv zeta. by apply create_depends_on_client.
Qed.

(** X10.  The facade keeps no history: after a single-turn chat, a
    multi-turn chat or a loop over a stream, a chat call returns what it
    would have returned without the earlier call, and does to the
    transport what it would have done. *)
Theorem calls_leave_no_history (c1 c2 : Call) (w w1 : World) (n : nat)
    (g : Generator) :
  w1 ∈ [(chat c1 w).2; (chat_with_history c1 w).2; (for_each n g w).2] →
  (chat c2 w1).1 = (chat c2 w).1
  ∧ (chat_with_history c2 w1).1 = (chat_with_history c2 w).1
  ∧ (∃ evs, trace (chat c2 w1).2 = trace w1 ++ evs
            ∧ trace (chat c2 w).2 = trace w ++ evs)
  ∧ (∃ evs, trace (chat_with_history c2 w1).2 = trace w1 ++ evs
            ∧ trace (chat_with_history c2 w).2 = trace w ++ evs).
Proof.
  intros Hin.
  assert (client (self w1) = client (self w)) as Hc.
  { rewrite !elem_of_cons in Hin.
    destruct Hin as [->|[->|[->|[]%elem_of_nil]]]; f_equal.
    - apply preserves_chat.
    - apply preserves_chat_with_history.
    - apply for_each_facade. }
  destruct (chat_depends_only_on_client c2 w1 w Hc)
    as [(evs & H1 & H2) (evs' & H3 & H4)].
  split_and!.
  - by rewrite H1.
  - by rewrite H3.
  - exists evs. by rewrite H1, H2.
  - exists evs'. by rewrite H3, H4.
Qed.

Lemma calls_leave_no_history_witness :
  (chat {| positional := [PStr "What is my name?"]; keywords := ∅ |}
     (chat {| positional := [PStr "My name is Alice."]; keywords := ∅ |}
        (ready pong_stub)).2).1
  = (chat {| positional := [PStr "What is my name?"]; keywords := ∅ |}
       (ready pong_stub)).1.
Proof.
  destruct (calls_leave_no_history
    {| positional := [PStr "My name is Alice."]; keywords := ∅ |}
    {| positional := [PStr "What is my name?"]; keywords := ∅ |}
    (ready pong_stub)
    (chat {| positional := [PStr "My name is Alice."]; keywords := ∅ |}
       (ready pong_stub)).2 0 GenClosed) as (H & _).
  - apply list_elem_of_here.
  - exact H.
Defined.

(** * Single-turn chat through multi-turn chat *)

Lemma surplus_id (sig : list Param) (kw : gmap string pyval) :
  (∀ k, k ∈ p_name <$> sig → kw !! k = None) → surplus sig kw = kw.
Proof.
  unfold surplus. induction sig as [|p sig IH]; intros H; [done|].
  cbn [fmap list_fmap foldr]. rewrite IH.
  - apply delete_id, H. apply list_elem_of_here.
  - intros k Hk. apply H. by apply list_elem_of_further.
Qed.

(** X11.  Single-turn chat is multi-turn chat on the one-element
    conversation made of the user turn: unless the caller passes a
    [messages] keyword, [chat] does exactly what [chat_with_history]
    does with that conversation and the same parameters and extras. *)
Theorem chat_is_chat_with_history_of_one_turn (c : Call) (fr : Frame)
    (w : World) :
  bind_chat "message" c = inr fr → keywords c !! "messages" = None →
  chat c w
  = chat_with_history
      {| positional := [user_turn (arg0 fr); model fr; system_prompt fr;
                        max_tokens fr; temperature fr];
         keywords := kwargs fr |} w.
Proof.
  intros Hb Hm.
  assert (∀ k, k ∈ ["message"; "model"; "system_prompt"; "max_tokens";
                    "temperature"] → kwargs fr !! k = None) as Hnone
    by (intros k Hk; by apply (bind_chat_kwargs_param "message" c fr k Hb)).
  assert (kwargs fr !! "messages" = None) as Hms.
  { rewrite (bind_chat_kwargs_other "message" c fr "messages" Hb); [done|].
    rewrite !not_elem_of_cons. split_and!; try done. apply not_elem_of_nil. }
  assert (kwargs fr !! "self" = None) as Hself.
  { rewrite (bind_chat_kwargs_other "message" c fr "self" Hb).
    - by destruct (bind_chat_inv _ c fr Hb) as (-> & _).
    - rewrite !not_elem_of_cons. split_and!; try done. apply not_elem_of_nil. }
  assert (bind_chat "messages"
            {| positional := [user_turn (arg0 fr); model fr; system_prompt fr;
                              max_tokens fr; temperature fr];
               keywords := kwargs fr |}
          = inr {| arg0 := user_turn (arg0 fr); model := model fr;
                   system_prompt := system_prompt fr;
                   max_tokens := max_tokens fr;
                   temperature := temperature fr; kwargs := kwargs fr |}) as Hb'.
  { unfold bind_chat, bind_args. cbn [positional keywords].
    rewrite Hself. rewrite bool_decide_eq_false_2 by (by intros [? ?]).
    cbn [chat_signature multiple_values p_name].
    rewrite Hms, !Hnone by set_solver.
    cbn [negb andb]. rewrite bool_decide_eq_false_2 by (cbn; lia).
    cbn [fill fmap option_fmap option_map].
    rewrite surplus_id; [done|].
    intros k. cbn. rewrite !elem_of_cons.
    intros [->|[->|[->|[->|[->|[]%elem_of_nil]]]]]; [done|apply Hnone; set_solver..]. }
  unfold chat, chat_with_history. unfold bind at 1 3. unfold lift.
  rewrite Hb, Hb'. reflexivity.
Qed.

Lemma chat_is_chat_with_history_of_one_turn_witness :
  chat {| positional := [PStr "hi"];
          keywords := {[ "model" := PStr "claude-3-opus-20240229" ]} |}
    (ready pong_stub)
  = chat_with_history
      {| positional := [user_turn (PStr "hi"); PStr "claude-3-opus-20240229";
                        PNone; PInt 1024; PFloat float_one];
         keywords := ∅ |} (ready pong_stub).
Proof.
  refine (chat_is_chat_with_history_of_one_turn
    {| positional := [PStr "hi"];
       keywords := {[ "model" := PStr "claude-3-opus-20240229" ]} |}
    {| arg0 := PStr "hi";
       model := PStr "claude-3-opus-20240229";
       system_prompt := PNone;
       max_tokens := PInt 1024;
       temperature := PFloat float_one;
       kwargs := ∅ |}
    (ready pong_stub) _ _).
  - vm_compute. reflexivity.
  - reflexivity.
Defined.

(** * The scripts, step by step *)

Lemma append_empty_r (s : string) : s +:+ "" = s.
Proof. induction s as [|a s IH]; [done|]. rewrite <- IH at 2. reflexivity. Qed.

Lemma chat_bound (c : Call) (fr : Frame) (w : World) (t : Transport) :
  bind_chat "message" c = inr fr → client (self w) = Some t →
  let params := request_of [("model", model fr);
                            ("messages", user_turn (arg0 fr));
                            ("max_tokens", max_tokens fr);
                            ("temperature", temperature fr)] fr in
  chat c w = (reply t params, log w [EvCreate params]).
Proof.
  intros Hb Hc params. unfold chat. unfold bind at 1. unfold lift.
  rewrite Hb. cbv zeta. by apply create_run.
Qed.

Lemma chat_with_history_bound (c : Call) (fr : Frame) (w : World)
    (t : Transport) :
  bind_chat "messages" c = inr fr → client (self w) = Some t →
  let params := request_of [("model", model fr);
                            ("messages", arg0 fr);
                            ("max_tokens", max_tokens fr);
                            ("temperature", temperature fr)] fr in
  chat_with_history c w = (reply t params, log w [EvCreate params]).
Proof.
  intros Hb Hc params. unfold chat_with_history. unfold bind at 1. unfold lift.
  rewrite Hb. cbv zeta. by apply create_run.
Qed.

Lemma gen_next_bound (fr : Frame) (w : World) (t : Transport) :
  client (self w) = Some t →
  let params := request_of [("model", model fr);
                            ("messages", user_turn (arg0 fr));
                            ("max_tokens", max_tokens fr);
                            ("temperature", temperature fr);
                            ("stream", PBool true)] fr in
  gen_next (GenCreated fr) w
  = match messages_stream t params with
    | inl e =>
        ((Raised (leaving_generator e), GenClosed), log w [EvStream params])
    | inr s =>
        gen_next (GenSuspended (fragments s) (failure s))
          (log w [EvStream params; EvEnter])
    end.
Proof.
  intros Hc params. cbn [gen_next]. unfold chat_stream_body. cbv zeta.
  by apply open_run.
Qed.

Lemma print_chunks_suspended (n : nat) (rest : list string)
    (fail : option exn) (c : Console) :
  (length rest < n)%nat →
  print_chunks n (GenSuspended rest fail) c
  = (match ending_of fail with Failed e => Threw e | _ => Returned tt end,
     {| world := log (world c) [EvExit]; stdout := stdout c ++ rest |}).
Proof.
  revert n c. induction rest as [|t rest IH]; intros n c Hn.
  - destruct n as [|n]; [simpl in Hn; lia|]. rewrite app_nil_r.
    cbn. by destruct fail as [[]|].
  - destruct n as [|n]; [simpl in Hn; lia|].
    cbn [print_chunks gen_next stream_loop]. unfold resume, ret.
    unfold pbind, py_print. cbn [world stdout String.concat].
    rewrite IH by (simpl in Hn; lia). cbn [world stdout].
    by rewrite append_empty_r, <- app_assoc.
Qed.

Lemma print_chunks_created (n : nat) (fr : Frame) (c : Console) (t : Transport) :
  client (self (world c)) = Some t →
  let params := request_of [("model", model fr);
                            ("messages", user_turn (arg0 fr));
                            ("max_tokens", max_tokens fr);
                            ("temperature", temperature fr);
                            ("stream", PBool true)] fr in
  print_chunks (S n) (GenCreated fr) c
  = match messages_stream t params with
    | inl e => (Threw (leaving_generator e),
                {| world := log (world c) [EvStream params];
                   stdout := stdout c |})
    | inr s =>
        print_chunks (S n) (GenSuspended (fragments s) (failure s))
          {| world := log (world c) [EvStream params; EvEnter];
             stdout := stdout c |}
    end.
Proof.
  intros Hc params. cbn [print_chunks].
  rewrite (gen_next_bound fr (world c) t Hc). fold params.
  by destruct (messages_stream t params).
Qed.

Lemma pbind_call {A B} (m : M A) (k : A → P B) (c : Console) :
  pbind (call m) k c
  = match m (world c) with
    | (inr a, w) => k a {| world := w; stdout := stdout c |}
    | (inl e, w) => (Threw e, {| world := w; stdout := stdout c |})
    end.
Proof. unfold pbind, call. by destruct (m (world c)) as [[e|a] w]. Qed.

Lemma pbind_print {B} (args : list string) (end_ : string) (k : unit → P B)
    (c : Console) :
  pbind (py_print args end_) k c
  = k tt {| world := world c;
            stdout := stdout c ++ [String.concat " " args +:+ end_] |}.
Proof. done. Qed.

Lemma call_chat_plain (text : string) (w : World) (t : Transport) :
  client (self w) = Some t →
  let params := plain_request "claude-3-5-sonnet-20241022"
                  (user_turn (PStr text)) None false in
  chat {| positional := [PStr text]; keywords := ∅ |} w
  = (reply t params, log w [EvCreate params]).
Proof.
  intros Hc params.
  rewrite (chat_bound _ {| arg0 := PStr text;
                           model := PStr "claude-3-5-sonnet-20241022";
                           system_prompt := PNone;
                           max_tokens := PInt 1024;
                           temperature := PFloat float_one;
                           kwargs := ∅ |} w t);
    [|vm_compute; reflexivity|done].
  cbv zeta.
  replace (request_of _ _) with params by (vm_compute; reflexivity). done.
Qed.

Lemma call_chat_system (text sys : string) (w : World) (t : Transport) :
  client (self w) = Some t → truthy (PStr sys) = true →
  let params := plain_request "claude-3-5-sonnet-20241022"
                  (user_turn (PStr text)) (Some sys) false in
  chat {| positional := [PStr text];
          keywords := {[ "system_prompt" := PStr sys ]} |} w
  = (reply t params, log w [EvCreate params]).
Proof.
  intros Hc Hs params.
  rewrite (chat_bound _ {| arg0 := PStr text;
                           model := PStr "claude-3-5-sonnet-20241022";
                           system_prompt := PStr sys;
                           max_tokens := PInt 1024;
                           temperature := PFloat float_one;
                           kwargs := ∅ |} w t);
    [|vm_compute; reflexivity|done].
  cbv zeta. unfold request_of. cbn [system_prompt]. rewrite Hs.
  match goal with |- (reply t ?p, _) = _ =>
    replace p with params by (vm_compute; reflexivity) end.
  done.
Qed.

Lemma call_chat_model (text m : string) (w : World) (t : Transport) :
  client (self w) = Some t →
  let params := plain_request m (user_turn (PStr text)) None false in
  chat {| positional := [PStr text];
          keywords := {[ "model" := PStr m ]} |} w
  = (reply t params, log w [EvCreate params]).
Proof.
  intros Hc params.
  rewrite (chat_bound _ {| arg0 := PStr text;
                           model := PStr m;
                           system_prompt := PNone;
                           max_tokens := PInt 1024;
                           temperature := PFloat float_one;
                           kwargs := ∅ |} w t);
    [|vm_compute; reflexivity|done].
  cbv zeta.
  replace (request_of _ _) with params by (vm_compute; reflexivity). done.
Qed.

Lemma call_history_plain (turns : pyval) (w : World) (t : Transport) :
  client (self w) = Some t →
  let params := plain_request "claude-3-5-sonnet-20241022" turns None false in
  chat_with_history {| positional := [turns]; keywords := ∅ |} w
  = (reply t params, log w [EvCreate params]).
Proof.
  intros Hc params.
  rewrite (chat_with_history_bound _
             {| arg0 := turns;
                model := PStr "claude-3-5-sonnet-20241022";
                system_prompt := PNone;
                max_tokens := PInt 1024;
                temperature := PFloat float_one;
                kwargs := ∅ |} w t);
    [|vm_compute; reflexivity|done].
  cbv zeta.
  replace (request_of _ _) with params by (vm_compute; reflexivity). done.
Qed.

Lemma chat_stream_plain (text : string) (w : World) :
  chat_stream {| positional := [PStr text]; keywords := ∅ |} w
  = (inr (GenCreated {| arg0 := PStr text;
                        model := PStr "claude-3-5-sonnet-20241022";
                        system_prompt := PNone;
                        max_tokens := PInt 1024;
                        temperature := PFloat float_one;
                        kwargs := ∅ |}), w).
Proof. apply chat_stream_run. vm_compute. reflexivity. Qed.

Lemma print_chunks_plain (n : nat) (text : string) (c : Console)
    (t : Transport) :
  client (self (world c)) = Some t →
  let params := plain_request "claude-3-5-sonnet-20241022"
                  (user_turn (PStr text)) None true in
  print_chunks (S n)
    (GenCreated {| arg0 := PStr text;
                   model := PStr "claude-3-5-sonnet-20241022";
                   system_prompt := PNone;
                   max_tokens := PInt 1024;
                   temperature := PFloat float_one;
                   kwargs := ∅ |}) c
  = match messages_stream t params with
    | inl e => (Threw (leaving_generator e),
                {| world := log (world c) [EvStream params];
                   stdout := stdout c |})
    | inr s =>
        print_chunks (S n) (GenSuspended (fragments s) (failure s))
          {| world := log (world c) [EvStream params; EvEnter];
             stdout := stdout c |}
    end.
Proof.
  intros Hc params.
  rewrite (print_chunks_created n _ _ t) by done. cbv zeta.
  replace (request_of _ _) with params by (vm_compute; reflexivity).
  done.
Qed.

Ltac script_tidy :=
  unfold log; cbn [world stdout environ self trace];
  repeat rewrite <- List.app_assoc; cbn [app].

(** * The script of [claude_client.py] *)

Section ScriptProperties.

Variable Anthropic : pyval → Transport.
Variable describe : exn → string.

Lemma bind_init_no_arguments : bind_init no_arguments = inr PNone.
Proof. vm_compute. reflexivity. Qed.

(** X12.  Run without a credential (no argument is given and the
    environment variable is unset or empty), the script of
    [claude_client.py] prints the error of the constructor and the two
    lines that tell how to set the variable, and ends normally; it has
    only read the variable, and built no client. *)
Theorem claude_client_main_without_credential (n : nat) (c : Console) :
  environ (world c) !! "ANTHROPIC_API_KEY" = None
  ∨ environ (world c) !! "ANTHROPIC_API_KEY" = Some "" →
  ∃ k,
    claude_client_main Anthropic describe n c
    = (Returned tt,
       {| world :=
            {| environ := environ (world c);
               self := {| api_key := Some k; client := None |};
               trace := trace (world c) ++ [EvGetenv "ANTHROPIC_API_KEY"] |};
          stdout :=
            stdout c ++
            ["Error: API key required. Set ANTHROPIC_API_KEY environment variable or pass api_key parameter."
               +:+ nl;
             nl +:+ "Please set your ANTHROPIC_API_KEY environment variable:"
                +:+ nl;
             "export ANTHROPIC_API_KEY='your-api-key-here'" +:+ nl] |}).
Proof.
  intros Henv.
  destruct (construct_fallback_missing Anthropic no_arguments PNone (world c)
              bind_init_no_arguments eq_refl Henv) as [k Hk].
  exists k. unfold claude_client_main, try_except.
  rewrite pbind_call, Hk. cbn [is_ValueError].
  rewrite !pbind_print. unfold py_print. by script_tidy.
Qed.

(** X13.  The script of [claude_client.py] catches [ValueError] only.
    When the transport fails the first request with [e], a [ValueError]
    is reported with the credential hint and the script ends normally,
    and any other error leaves the script uncaught with nothing
    printed; either way one request was sent. *)
Theorem claude_client_main_transport_failure (n : nat) (c : Console)
    (a : Ascii.ascii) (s : string) (e : exn) :
  environ (world c) !! "ANTHROPIC_API_KEY" = Some (String a s) →
  (∀ params, messages_create (Anthropic (PStr (String a s))) params = inl e) →
  claude_client_main Anthropic describe n c
  = (if is_ValueError e then Returned tt else Threw e,
     {| world :=
          {| environ := environ (world c);
             self := {| api_key := Some (PStr (String a s));
                        client := Some (Anthropic (PStr (String a s))) |};
             trace :=
               trace (world c) ++
               [EvGetenv "ANTHROPIC_API_KEY"; EvAnthropic (PStr (String a s));
                EvCreate (plain_request "claude-3-5-sonnet-20241022"
                  (user_turn (PStr "Hello, Claude! Can you introduce yourself?"))
                  None false)] |};
        stdout :=
          stdout c ++
          if is_ValueError e
          then ["Error: " +:+ str_exn describe e +:+ nl;
                nl +:+ "Please set your ANTHROPIC_API_KEY environment variable:"
                   +:+ nl;
                "export ANTHROPIC_API_KEY='your-api-key-here'" +:+ nl]
          else [] |}).
Proof.
  intros Henv Hfail.
  unfold claude_client_main, try_except.
  rewrite pbind_call.
  rewrite (construct_fallback_found Anthropic no_arguments PNone (world c) a s
             bind_init_no_arguments eq_refl Henv).
  rewrite pbind_call. cbn [world stdout].
  rewrite (call_chat_plain _ _ (Anthropic (PStr (String a s)))) by reflexivity.
  unfold reply. rewrite Hfail. script_tidy.
  destruct (is_ValueError e).
  - rewrite !pbind_print. unfold py_print. by script_tidy.
  - by rewrite app_nil_r.
Qed.

(** X14.  With the credential in the environment, replies whose first
    block is [b] and streams that yield [fs] and end, the script of
    [claude_client.py] builds one client, sends two requests and opens
    one stream (the second request with its system instruction), exits
    the stream, and prints the two answers, the heading and the
    fragments, then a line feed. *)
Theorem claude_client_main_transcript (n : nat) (c : Console)
    (a : Ascii.ascii) (s : string) (r : Message) (b : ContentBlock)
    (bs : list ContentBlock) (fs : list string) :
  let key := PStr (String a s) in
  environ (world c) !! "ANTHROPIC_API_KEY" = Some (String a s) →
  (∀ params, messages_create (Anthropic key) params = inr r) →
  content r = b :: bs →
  (∀ params, messages_stream (Anthropic key) params
             = inr {| fragments := fs; failure := None |}) →
  (length fs < n)%nat →
  claude_client_main Anthropic describe n c
  = (Returned tt,
     {| world :=
          {| environ := environ (world c);
             self := {| api_key := Some key; client := Some (Anthropic key) |};
             trace :=
               trace (world c) ++
               [EvGetenv "ANTHROPIC_API_KEY"; EvAnthropic key;
                EvCreate (plain_request "claude-3-5-sonnet-20241022"
                  (user_turn (PStr "Hello, Claude! Can you introduce yourself?"))
                  None false);
                EvCreate (plain_request "claude-3-5-sonnet-20241022"
                  (user_turn (PStr "What is the capital of France?"))
                  (Some "You are a helpful assistant that provides accurate information.")
                  false);
                EvStream (plain_request "claude-3-5-sonnet-20241022"
                  (user_turn (PStr "Tell me a short joke.")) None true);
                EvEnter; EvExit] |};
        stdout :=
          stdout c ++
          ["Claude: " +:+ text b +:+ nl;
           nl +:+ "Claude: " +:+ text b +:+ nl;
           nl +:+ "Streaming response:" +:+ nl]
          ++ fs ++ [nl] |}).
Proof.
  intros key Henv Hreply Hcontent Hstream Hn.
  destruct n as [|n]; [lia|].
  unfold claude_client_main, try_except.
  rewrite pbind_call.
  rewrite (construct_fallback_found Anthropic no_arguments PNone (world c) a s
             bind_init_no_arguments eq_refl Henv).
  rewrite pbind_call. cbn [world stdout].
  rewrite (call_chat_plain _ _ (Anthropic key)) by reflexivity.
  rewrite (reply_first_block _ _ r b bs (Hreply _) Hcontent).
  rewrite pbind_print, pbind_call. cbn [world stdout].
  rewrite (call_chat_system _ _ _ (Anthropic key)) by reflexivity.
  rewrite (reply_first_block _ _ r b bs (Hreply _) Hcontent).
  rewrite !pbind_print, pbind_call, chat_stream_plain. cbn [world stdout].
  unfold pbind at 1.
  rewrite (print_chunks_plain n _ _ (Anthropic key)) by reflexivity.
  rewrite Hstream. cbn [fragments failure].
  rewrite print_chunks_suspended by lia.
  unfold py_print. script_tidy. fold key.
  reflexivity.
Qed.

(** * The script of [example_usage.py] *)

Lemma pbind_assoc {A B C} (m : P A) (f : A → P B) (g : B → P C)
    (c : Console) :
  pbind (pbind m f) g c = pbind m (fun x => pbind (f x) g) c.
Proof. unfold pbind. by destruct (m c) as [[x|e|] c']. Qed.

Lemma for_list_print {B} (xs : list string) (f : string → string)
    (k : unit → P B) (c : Console) :
  pbind (for_list xs (fun x => py_print [f x] nl)) k c
  = k tt {| world := world c;
            stdout := stdout c ++ ((fun x => f x +:+ nl) <$> xs) |}.
Proof.
  revert c. induction xs as [|x xs IH]; intros c.
  - cbn. rewrite app_nil_r. by destruct c.
  - cbn [for_list]. rewrite pbind_assoc, pbind_print, IH.
    cbn [world stdout fmap list_fmap]. by rewrite <- List.app_assoc.
Qed.

Lemma models_run (w : World) :
  get_available_models no_arguments w
  = (inr [ "claude-3-5-sonnet-20241022";
           "claude-3-5-haiku-20241022";
           "claude-3-opus-20240229";
           "claude-3-sonnet-20240229";
           "claude-3-haiku-20240307" ], w).
Proof. reflexivity. Qed.

Lemma getenv_run (name : string) (w : World) :
  getenv name w
  = (inr (match environ w !! name with Some v => PStr v | None => PNone end),
     log w [EvGetenv name]).
Proof. done. Qed.

(** X15.  When the environment variable is unset or empty, [main] prints
    its three lines and returns: it has only read the variable; no
    client is built and no example runs. *)
Theorem main_without_credential (n : nat) (c : Console) :
  environ (world c) !! "ANTHROPIC_API_KEY" = None
  ∨ environ (world c) !! "ANTHROPIC_API_KEY" = Some "" →
  main Anthropic describe n c
  = (Returned tt,
     {| world := log (world c) [EvGetenv "ANTHROPIC_API_KEY"];
        stdout :=
          stdout c ++
          ["Error: ANTHROPIC_API_KEY environment variable not set." +:+ nl;
           "Please set it in your .env file or export it:" +:+ nl;
           "export ANTHROPIC_API_KEY='your-api-key-here'" +:+ nl] |}).
Proof.
  intros Henv. unfold main, try_except.
  rewrite pbind_call, getenv_run.
  assert (truthy (match environ (world c) !! "ANTHROPIC_API_KEY" with
                  | Some v => PStr v | None => PNone end) = false) as ->
    by (by destruct Henv as [-> | ->]).
  cbn [negb]. rewrite !pbind_print. unfold py_print. by script_tidy.
Qed.


Section Stub.

Variables (a : Ascii.ascii) (s : string).

Let key : pyval := PStr (String a s).

Let built (w : World) (evs : list Event) : World :=
  {| environ := environ w;
     self := {| api_key := Some key; client := Some (Anthropic key) |};
     trace := trace w ++ [EvGetenv "ANTHROPIC_API_KEY"; EvAnthropic key] ++ evs |}.

Lemma construct_in_script {B} (k : unit → P B) (c : Console) :
  environ (world c) !! "ANTHROPIC_API_KEY" = Some (String a s) →
  pbind (call (construct Anthropic no_arguments)) k c
  = k tt {| world := built (world c) []; stdout := stdout c |}.
Proof.
  intros Henv. rewrite pbind_call.
  by rewrite (construct_fallback_found Anthropic no_arguments PNone (world c) a s
                bind_init_no_arguments eq_refl Henv).
Qed.

Section Replies.

Variables (r : Message) (b : ContentBlock) (bs : list ContentBlock)
  (fs : list string) (n : nat).

Hypothesis Hreply : ∀ params, messages_create (Anthropic key) params = inr r.
Hypothesis Hcontent : content r = b :: bs.
Hypothesis Hstream :
  ∀ params, messages_stream (Anthropic key) params
            = inr {| fragments := fs; failure := None |}.
Hypothesis Hfuel : (length fs < n)%nat.

Lemma example_basic_chat_run (c : Console) :
  environ (world c) !! "ANTHROPIC_API_KEY" = Some (String a s) →
  example_basic_chat Anthropic c
  = (Returned tt,
     {| world := built (world c)
          [EvCreate (plain_request "claude-3-5-sonnet-20241022"
             (user_turn (PStr "What is artificial intelligence?")) None false)];
        stdout :=
          stdout c ++
          [str_mul "=" 50 +:+ nl;
           "Example 1: Basic Chat" +:+ nl;
           str_mul "=" 50 +:+ nl;
           ("Response: " +:+ text b +:+ nl) +:+ nl] |}).
Proof.
  intros Henv. unfold example_basic_chat.
  rewrite !pbind_print, construct_in_script by done.
  rewrite pbind_call. cbn [world stdout].
  rewrite (call_chat_plain _ _ (Anthropic key)) by reflexivity.
  rewrite (reply_first_block _ _ r b bs (Hreply _) Hcontent).
  unfold py_print, built. by script_tidy.
Qed.

Lemma example_system_prompt_run (c : Console) :
  environ (world c) !! "ANTHROPIC_API_KEY" = Some (String a s) →
  example_system_prompt Anthropic c
  = (Returned tt,
     {| world := built (world c)
          [EvCreate (plain_request "claude-3-5-sonnet-20241022"
             (user_turn (PStr "Explain quantum computing in simple terms."))
             (Some "You are a science educator who explains complex topics in simple, engaging ways.")
             false)];
        stdout :=
          stdout c ++
          [str_mul "=" 50 +:+ nl;
           "Example 2: Chat with System Prompt" +:+ nl;
           str_mul "=" 50 +:+ nl;
           ("Response: " +:+ text b +:+ nl) +:+ nl] |}).
Proof.
  intros Henv. unfold example_system_prompt.
  rewrite !pbind_print, construct_in_script by done.
  rewrite pbind_call. cbn [world stdout].
  rewrite (call_chat_system _ _ _ (Anthropic key)) by reflexivity.
  rewrite (reply_first_block _ _ r b bs (Hreply _) Hcontent).
  unfold py_print, built. by script_tidy.
Qed.

Lemma example_streaming_run (c : Console) :
  environ (world c) !! "ANTHROPIC_API_KEY" = Some (String a s) →
  example_streaming Anthropic n c
  = (Returned tt,
     {| world := built (world c)
          [EvStream (plain_request "claude-3-5-sonnet-20241022"
             (user_turn (PStr "Write a haiku about coding.")) None true);
           EvEnter; EvExit];
        stdout :=
          stdout c ++
          [str_mul "=" 50 +:+ nl;
           "Example 3: Streaming Response" +:+ nl;
           str_mul "=" 50 +:+ nl;
           "Response (streaming): "]
          ++ fs ++ [nl +:+ nl] |}).
Proof.
  intros Henv. unfold example_streaming.
  destruct n as [|n']; [clear -Hfuel; lia|].
  rewrite !pbind_print, construct_in_script by done.
  rewrite pbind_print, pbind_call, chat_stream_plain. cbn [world stdout].
  unfold pbind at 1.
  rewrite (print_chunks_plain n' _ _ (Anthropic key)) by reflexivity.
  rewrite Hstream. cbn [fragments failure].
  rewrite print_chunks_suspended by (clear -Hfuel; lia).
  unfold py_print, built. by script_tidy.
Qed.

Lemma example_conversation_history_run (c : Console) :
  environ (world c) !! "ANTHROPIC_API_KEY" = Some (String a s) →
  example_conversation_history Anthropic c
  = (Returned tt,
     {| world := built (world c)
          [EvCreate (plain_request "claude-3-5-sonnet-20241022"
             (PList [PDict [("role", PStr "user");
                            ("content", PStr "My name is Alice.")];
                     PDict [("role", PStr "assistant");
                            ("content", PStr "Nice to meet you, Alice! How can I help you today?")];
                     PDict [("role", PStr "user");
                            ("content", PStr "What's my name?")]])
             None false)];
        stdout :=
          stdout c ++
          [str_mul "=" 50 +:+ nl;
           "Example 4: Conversation with History" +:+ nl;
           str_mul "=" 50 +:+ nl;
           ("Response: " +:+ text b +:+ nl) +:+ nl] |}).
Proof.
  intros Henv. unfold example_conversation_history.
  rewrite !pbind_print, construct_in_script by done.
  cbv zeta. rewrite pbind_call. cbn [world stdout].
  rewrite (call_history_plain _ _ (Anthropic key)) by reflexivity.
  rewrite (reply_first_block _ _ r b bs (Hreply _) Hcontent).
  unfold py_print, built. by script_tidy.
Qed.

Lemma example_different_models_run (c : Console) :
  environ (world c) !! "ANTHROPIC_API_KEY" = Some (String a s) →
  example_different_models Anthropic c
  = (Returned tt,
     {| world := built (world c)
          [EvCreate (plain_request "claude-3-5-haiku-20241022"
             (user_turn (PStr "What is 2+2?")) None false)];
        stdout :=
          stdout c ++
          [str_mul "=" 50 +:+ nl;
           "Example 5: Using Different Models" +:+ nl;
           str_mul "=" 50 +:+ nl;
           "Available models:" +:+ nl;
           "  - claude-3-5-sonnet-20241022" +:+ nl;
           "  - claude-3-5-haiku-20241022" +:+ nl;
           "  - claude-3-opus-20240229" +:+ nl;
           "  - claude-3-sonnet-20240229" +:+ nl;
           "  - claude-3-haiku-20240307" +:+ nl;
           nl +:+ "Using Claude Haiku:" +:+ nl;
           ("Response: " +:+ text b +:+ nl) +:+ nl] |}).
Proof.
  intros Henv. unfold example_different_models.
  rewrite !pbind_print, construct_in_script by done.
  rewrite pbind_call, models_run. cbn [world stdout].
  rewrite pbind_print, for_list_print, pbind_print.
  rewrite pbind_call. cbn [world stdout fmap list_fmap].
  rewrite (call_chat_model _ _ _ (Anthropic key)) by reflexivity.
  rewrite (reply_first_block _ _ r b bs (Hreply _) Hcontent).
  unfold py_print, built. by script_tidy.
Qed.

End Replies.

End Stub.

(** X17.  When the credential is in the environment and the transport
    fails every request with [e], [main] has built one client and sent
    one request, and the later examples are not run.  If [e] is an
    [Exception], [main] prints the banner of the first example and the
    error and returns normally; if it is not ([KeyboardInterrupt],
    [SystemExit]), it leaves [main] after the banner, with no error
    line. *)
Theorem main_stops_at_first_failure (n : nat) (c : Console)
    (a : Ascii.ascii) (s : string) (e : exn) :
  environ (world c) !! "ANTHROPIC_API_KEY" = Some (String a s) →
  (∀ params, messages_create (Anthropic (PStr (String a s))) params = inl e) →
  main Anthropic describe n c
  = (if is_Exception e then Returned tt else Threw e,
     {| world :=
          {| environ := environ (world c);
             self := {| api_key := Some (PStr (String a s));
                        client := Some (Anthropic (PStr (String a s))) |};
             trace :=
               trace (world c) ++
               [EvGetenv "ANTHROPIC_API_KEY";
                EvGetenv "ANTHROPIC_API_KEY";
                EvAnthropic (PStr (String a s));
                EvCreate (plain_request "claude-3-5-sonnet-20241022"
                  (user_turn (PStr "What is artificial intelligence?"))
                  None false)] |};
        stdout :=
          stdout c ++
          [str_mul "=" 50 +:+ nl;
           "Example 1: Basic Chat" +:+ nl;
           str_mul "=" 50 +:+ nl]
          ++ if is_Exception e
             then ["Error: " +:+ str_exn describe e +:+ nl]
             else [] |}).
Proof.
  intros Henv Hfail. unfold main, try_except.
  rewrite pbind_call, getenv_run, Henv. cbn [truthy negb].
  unfold pbind at 1. unfold example_basic_chat.
  rewrite !pbind_print, (construct_in_script a s) by done.
  rewrite pbind_call. cbn [world stdout].
  rewrite (call_chat_plain _ _ (Anthropic (PStr (String a s)))) by reflexivity.
  unfold reply. rewrite Hfail.
  destruct (is_Exception e); unfold py_print; by script_tidy.
Qed.

(** X18.  When the credential is in the environment, every request is
    answered by a reply whose first block is [b] and every stream yields
    the fragments [fs] and ends, [main] runs the five examples in order:
    it builds a client from the environment for each, sends the five
    requests shown (the second with its system instruction, the fourth
    with the three-turn history, the fifth with the Haiku model), and
    prints the transcript shown. *)
Theorem main_transcript (n : nat) (c : Console) (a : Ascii.ascii) (s : string)
    (r : Message) (b : ContentBlock) (bs : list ContentBlock)
    (fs : list string) :
  environ (world c) !! "ANTHROPIC_API_KEY" = Some (String a s) →
  (∀ params, messages_create (Anthropic (PStr (String a s))) params = inr r) →
  content r = b :: bs →
  (∀ params, messages_stream (Anthropic (PStr (String a s))) params
             = inr {| fragments := fs; failure := None |}) →
  (length fs < n)%nat →
  main Anthropic describe n c
  = (Returned tt,
     {| world :=
          {| environ := environ (world c);
             self := {| api_key := Some (PStr (String a s));
                        client := Some (Anthropic (PStr (String a s))) |};
             trace :=
               trace (world c) ++
               [EvGetenv "ANTHROPIC_API_KEY";
                EvGetenv "ANTHROPIC_API_KEY"; EvAnthropic (PStr (String a s));
                EvCreate (plain_request "claude-3-5-sonnet-20241022"
                  (user_turn (PStr "What is artificial intelligence?"))
                  None false);
                EvGetenv "ANTHROPIC_API_KEY"; EvAnthropic (PStr (String a s));
                EvCreate (plain_request "claude-3-5-sonnet-20241022"
                  (user_turn (PStr "Explain quantum computing in simple terms."))
                  (Some "You are a science educator who explains complex topics in simple, engaging ways.")
                  false);
                EvGetenv "ANTHROPIC_API_KEY"; EvAnthropic (PStr (String a s));
                EvStream (plain_request "claude-3-5-sonnet-20241022"
                  (user_turn (PStr "Write a haiku about coding.")) None true);
                EvEnter; EvExit;
                EvGetenv "ANTHROPIC_API_KEY"; EvAnthropic (PStr (String a s));
                EvCreate (plain_request "claude-3-5-sonnet-20241022"
                  (PList [PDict [("role", PStr "user");
                                 ("content", PStr "My name is Alice.")];
                          PDict [("role", PStr "assistant");
                                 ("content", PStr "Nice to meet you, Alice! How can I help you today?")];
                          PDict [("role", PStr "user");
                                 ("content", PStr "What's my name?")]])
                  None false);
                EvGetenv "ANTHROPIC_API_KEY"; EvAnthropic (PStr (String a s));
                EvCreate (plain_request "claude-3-5-haiku-20241022"
                  (user_turn (PStr "What is 2+2?")) None false)] |};
        stdout :=
          stdout c ++
          [str_mul "=" 50 +:+ nl;
           "Example 1: Basic Chat" +:+ nl;
           str_mul "=" 50 +:+ nl;
           ("Response: " +:+ text b +:+ nl) +:+ nl;
           str_mul "=" 50 +:+ nl;
           "Example 2: Chat with System Prompt" +:+ nl;
           str_mul "=" 50 +:+ nl;
           ("Response: " +:+ text b +:+ nl) +:+ nl;
           str_mul "=" 50 +:+ nl;
           "Example 3: Streaming Response" +:+ nl;
           str_mul "=" 50 +:+ nl;
           "Response (streaming): "]
          ++ fs ++
          [nl +:+ nl;
           str_mul "=" 50 +:+ nl;
           "Example 4: Conversation with History" +:+ nl;
           str_mul "=" 50 +:+ nl;
           ("Response: " +:+ text b +:+ nl) +:+ nl;
           str_mul "=" 50 +:+ nl;
           "Example 5: Using Different Models" +:+ nl;
           str_mul "=" 50 +:+ nl;
           "Available models:" +:+ nl;
           "  - claude-3-5-sonnet-20241022" +:+ nl;
           "  - claude-3-5-haiku-20241022" +:+ nl;
           "  - claude-3-opus-20240229" +:+ nl;
           "  - claude-3-sonnet-20240229" +:+ nl;
           "  - claude-3-haiku-20240307" +:+ nl;
           nl +:+ "Using Claude Haiku:" +:+ nl;
           ("Response: " +:+ text b +:+ nl) +:+ nl] |}).
Proof.
  intros Henv Hreply Hcontent Hstream Hfuel. unfold main, try_except.
  rewrite pbind_call, getenv_run, Henv. cbn [truthy negb].
  unfold pbind at 1. rewrite (example_basic_chat_run a s r b bs) by done.
  unfold pbind at 1. rewrite (example_system_prompt_run a s r b bs) by done.
  unfold pbind at 1. rewrite (example_streaming_run a s fs n) by done.
  unfold pbind at 1.
  rewrite (example_conversation_history_run a s r b bs) by done.
  rewrite (example_different_models_run a s r b bs) by done.
  script_tidy. reflexivity.
Qed.


End ScriptProperties.

(** ** Runs of the scripts *)

Lemma claude_client_main_without_credential_witness :
  (claude_client_main (fun _ => pong_stub) (fun _ => "") 0
     (fresh_console ∅)).1 = Returned tt.
Proof.
  destruct (claude_client_main_without_credential (fun _ => pong_stub)
              (fun _ => "") 0 (fresh_console ∅)) as [k H].
  - left. reflexivity.
  - rewrite H. reflexivity.
Defined.

Lemma claude_client_main_transport_failure_witness :
  (claude_client_main (fun _ => failing_stub rate_limited) (fun _ => "") 0
     (fresh_console with_key)).1 = Threw rate_limited.
Proof.
  rewrite (claude_client_main_transport_failure
             (fun _ => failing_stub rate_limited) (fun _ => "") 0
             (fresh_console with_key) (Ascii.ascii_of_nat 115) "k-env"
             rate_limited).
  - reflexivity.
  - vm_compute. reflexivity.
  - intros params. reflexivity.
Defined.

Lemma claude_client_main_transcript_witness :
  (claude_client_main (fun _ => pong_stub) (fun _ => "") 4
     (fresh_console with_key)).1 = Returned tt.
Proof.
  rewrite (claude_client_main_transcript (fun _ => pong_stub) (fun _ => "") 4
             (fresh_console with_key) (Ascii.ascii_of_nat 115) "k-env"
             {| content := [ {| text := "pong" |} ] |} {| text := "pong" |} []
             ["a"; "b"; "c"]).
  - reflexivity.
  - vm_compute. reflexivity.
  - intros params. reflexivity.
  - reflexivity.
  - intros params. reflexivity.
  - cbn. lia.
Defined.

Lemma main_without_credential_witness :
  (main (fun _ => pong_stub) (fun _ => "") 0 (fresh_console ∅)).1
  = Returned tt.
Proof.
  rewrite (main_without_credential (fun _ => pong_stub) (fun _ => "") 0
             (fresh_console ∅)).
  - reflexivity.
  - left. reflexivity.
Defined.

Lemma main_stops_at_first_failure_witness :
  (main (fun _ => failing_stub rate_limited) (fun _ => "") 0
     (fresh_console with_key)).1 = Returned tt.
Proof.
  rewrite (main_stops_at_first_failure (fun _ => failing_stub rate_limited)
             (fun _ => "") 0 (fresh_console with_key)
             (Ascii.ascii_of_nat 115) "k-env" rate_limited).
  - reflexivity.
  - vm_compute. reflexivity.
  - intros params. reflexivity.
Defined.

Lemma main_transcript_witness :
  (main (fun _ => pong_stub) (fun _ => "") 4 (fresh_console with_key)).1
  = Returned tt.
Proof.
  rewrite (main_transcript (fun _ => pong_stub) (fun _ => "") 4
             (fresh_console with_key) (Ascii.ascii_of_nat 115) "k-env"
             {| content := [ {| text := "pong" |} ] |} {| text := "pong" |} []
             ["a"; "b"; "c"]).
  - reflexivity.
  - vm_compute. reflexivity.
  - intros params. reflexivity.
  - reflexivity.
  - intros params. reflexivity.
  - cbn. lia.
Defined.
